(** * haollama-proxy: a shallow embedding of [haollama-proxy.py]

    The proxy sits between a client and an Ollama server.  This file embeds
    - [remove_empty_think_tags] and the regular expression it applies,
    - the per-line body of [ndjson_stream] (decode, clean, re-encode),
    - the two header comprehensions of [proxy_chat] / [proxy_all],
    - the view functions [proxy_chat] and [proxy_all] over an explicit
      trace of outbound [requests] calls,
    and proves the properties of the design document about them. *)

From Stdlib Require Import List NArith ZArith Bool Lia.
From Stdlib Require Import Strings.String Strings.Ascii Strings.Byte Numbers.DecimalString.
Import ListNotations.

Set Implicit Arguments.

(** ** Python values the program handles *)

Module Py.

(** A Python [str] is a sequence of Unicode code points. *)
Definition str := list N.

(** A Python [bytes] object. *)
Definition bytes := list byte.

(** The code points of an ASCII literal of the source. *)
Definition u (s : string) : str := map N_of_ascii (list_ascii_of_string s).

(** The exceptions that occur in the program. *)
Inductive exn : Type :=
| JSONDecodeError
| UnicodeDecodeError
| UnicodeEncodeError
| RecursionError
| TypeError
| KeyError
| NameError (name : string)
| ConnectionError.

(** A computation either returns or raises. *)
Inductive result (A : Type) : Type :=
| Ok (a : A)
| Raise (e : exn).

Arguments Ok {A} a.
Arguments Raise {A} e.

Definition bind {A B} (c : result A) (k : A -> result B) : result B :=
  match c with
  | Ok a => k a
  | Raise e => Raise e
  end.

Fixpoint str_eqb (a b : str) : bool :=
  match a, b with
  | [], [] => true
  | x :: a', y :: b' => N.eqb x y && str_eqb a' b'
  | _, _ => false
  end.

Fixpoint startswith (s prefix : str) : bool :=
  match prefix, s with
  | [], _ => true
  | p :: prefix', c :: s' => N.eqb p c && startswith s' prefix'
  | _ :: _, [] => false
  end.

(** [sub in s] for two strings: substring test. *)
Fixpoint str_contains (s sub : str) : bool :=
  startswith s sub ||
  match s with
  | [] => false
  | _ :: s' => str_contains s' sub
  end.

(** [str.encode('utf-8')]: surrogates cannot be encoded. *)
Definition byte_of (n : N) : byte :=
  match Byte.of_N n with Some b => b | None => x00 end.

Definition utf8_char (c : N) : result bytes :=
  if (c <? 128)%N then Ok [byte_of c]
  else if (c <? 2048)%N then
    Ok [byte_of (192 + c / 64); byte_of (128 + c mod 64)]
  else if (55296 <=? c)%N && (c <=? 57343)%N then Raise UnicodeEncodeError
  else if (c <? 65536)%N then
    Ok [byte_of (224 + c / 4096); byte_of (128 + (c / 64) mod 64);
        byte_of (128 + c mod 64)]
  else
    Ok [byte_of (240 + c / 262144); byte_of (128 + (c / 4096) mod 64);
        byte_of (128 + (c / 64) mod 64); byte_of (128 + c mod 64)].

Fixpoint encode_utf8 (s : str) : result bytes :=
  match s with
  | [] => Ok []
  | c :: s' =>
      bind (utf8_char c) (fun b =>
      bind (encode_utf8 s') (fun bs => Ok (b ++ bs)))
  end.

End Py.

Import Py.

Notation "x <- c ;; k" := (Py.bind c (fun x => k))
  (at level 61, c at next level, right associativity).

(** ** The fragment of [re] used by the program *)

Module Re.

(** [\s] on a [str] pattern: [str.isspace] of the code point. *)
Definition is_space (c : N) : bool :=
  ((9 <=? c) && (c <=? 13) || (28 <=? c) && (c <=? 32)
   || (c =? 133) || (c =? 160) || (c =? 5760)
   || (8192 <=? c) && (c <=? 8202)
   || (c =? 8232) || (c =? 8233) || (c =? 8239) || (c =? 8287)
   || (c =? 12288))%N.

Definition is_upper_ascii (c : N) : bool := ((65 <=? c) && (c <=? 90))%N.
Definition is_lower_ascii (c : N) : bool := ((97 <=? c) && (c <=? 122))%N.

Definition lower_ascii (c : N) : N :=
  if is_upper_ascii c then (c + 32)%N else c.

(** A literal [p] of an ASCII pattern under [re.IGNORECASE]: the two ASCII
    cases of a letter, and the non-ASCII code points whose lower case is
    that letter (U+0130 and U+0131 for [i], U+017F for [s], U+212A for
    [k]); any other literal matches itself only. *)
Definition ignorecase (p c : N) : bool :=
  let l := lower_ascii p in
  if is_lower_ascii l then
    ((c =? l) || (c =? l - 32)
     || (l =? 105) && ((c =? 304) || (c =? 305))
     || (l =? 115) && (c =? 383)
     || (l =? 107) && (c =? 8490))%N
  else (c =? p)%N.

(** Pattern items: a literal, or a greedy [\s*]. *)
Inductive item : Type :=
| LITERAL (p : N)
| MAX_REPEAT_SPACE.

(** Backtracking match of a pattern at the head of [s]; the result is
    the text left after the match.  [\s*] takes as many characters as it
    can and gives them back one at a time when the rest fails. *)
Fixpoint match_here (pat : list item) (s : str) : option str :=
  match pat with
  | [] => Some s
  | LITERAL p :: pat' =>
      match s with
      | c :: s' => if ignorecase p c then match_here pat' s' else None
      | [] => None
      end
  | MAX_REPEAT_SPACE :: pat' =>
      (fix repeat (s : str) : option str :=
         match s with
         | c :: s' =>
             if is_space c then
               match repeat s' with
               | Some rest => Some rest
               | None => match_here pat' s
               end
             else match_here pat' s
         | [] => match_here pat' s
         end) s
  end.

(** [re.sub(pat, '', s)] for a pattern that has no empty match: scan left
    to right; where the pattern matches, drop the match and go on after
    it; elsewhere keep the character. *)
Fixpoint sub_loop (pat : list item) (fuel : nat) (s : str) : str :=
  match fuel with
  | O => s
  | S fuel' =>
      match s with
      | [] => []
      | c :: s' =>
          match match_here pat s with
          | Some rest => sub_loop pat fuel' rest
          | None => c :: sub_loop pat fuel' s'
          end
      end
  end.

Definition sub (pat : list item) (s : str) : str :=
  sub_loop pat (List.length s) s.

End Re.

(** ** Values produced by [json.loads] *)

(** A [dict] keeps its keys in insertion order; a float is identified by the
    text [float.__repr__] prints for it. *)
#[warnings="-register-all"]
Inductive json : Type :=
| JNull
| JBool (b : bool)
| JInt (n : Z)
| JFloat (repr : str)
| JStr (s : str)
| JList (l : list json)
| JDict (d : list (str * json)).

Module Dict.

Section Assoc.
Context {K V : Type} (eqb : K -> K -> bool).

(** [d.get(k)] *)
Fixpoint get (d : list (K * V)) (k : K) : option V :=
  match d with
  | [] => None
  | (k', v) :: d' => if eqb k' k then Some v else get d' k
  end.

(** [k in d] *)
Definition mem (d : list (K * V)) (k : K) : bool :=
  match get d k with Some _ => true | None => false end.

(** [d[k] = v]: an existing key keeps its place, a new one goes last. *)
Fixpoint set (d : list (K * V)) (k : K) (v : V) : list (K * V) :=
  match d with
  | [] => [(k, v)]
  | (k', v') :: d' =>
      if eqb k' k then (k', v) :: d' else (k', v') :: set d' k v
  end.
End Assoc.

End Dict.

(** [key in v], [v[key]] and [v[key] = x] for a string [key], by the type
    of [v]. *)
Definition contains (key : str) (v : json) : result bool :=
  match v with
  | JDict d => Ok (Dict.mem str_eqb d key)
  | JList l =>
      Ok (existsb (fun x => match x with
                            | JStr s => str_eqb s key
                            | _ => false
                            end) l)
  | JStr s => Ok (str_contains s key)
  | JNull | JBool _ | JInt _ | JFloat _ => Raise TypeError
  end.

Definition getitem (v : json) (key : str) : result json :=
  match v with
  | JDict d =>
      match Dict.get str_eqb d key with
      | Some x => Ok x
      | None => Raise KeyError
      end
  | _ => Raise TypeError
  end.

Definition setitem (v : json) (key : str) (x : json) : result json :=
  match v with
  | JDict d => Ok (JDict (Dict.set str_eqb d key x))
  | _ => Raise TypeError
  end.

(** ** [remove_empty_think_tags] *)

(** [r'<think>\s*</think>'] compiled with [re.IGNORECASE | re.DOTALL]. *)
Definition open_items : list Re.item := map Re.LITERAL (u "<think>").
Definition close_items : list Re.item := map Re.LITERAL (u "</think>").

Definition think_pattern : list Re.item :=
  open_items ++ Re.MAX_REPEAT_SPACE :: close_items.

(** [re.sub(r'<think>\s*</think>', '', text, flags=...)] on a string. *)
Definition sub_think (text : str) : str := Re.sub think_pattern text.

(** [re.sub] raises [TypeError] when [text] is not a string. *)
Definition remove_empty_think_tags (text : json) : result json :=
  match text with
  | JStr s => Ok (JStr (sub_think s))
  | _ => Raise TypeError
  end.

(** ** The body of [ndjson_stream] *)

Definition message : str := u "message".
Definition content : str := u "content".

(** Lines 127-128: the guarded assignment to [data["message"]["content"]]. *)
Definition line_transform (data : json) : result json :=
  has_message <- contains message data ;;
  if has_message : bool then
    m <- getitem data message ;;
    has_content <- contains content m ;;
    if has_content : bool then
      c <- getitem m content ;;
      c' <- remove_empty_think_tags c ;;
      m' <- setitem m content c' ;;
      setitem data message m'
    else Ok data
  else Ok data.

(** What one step of the generator does to the outside: it yields a chunk,
    or it prints one of the two error messages. *)
Inductive effect : Type :=
| Yield (chunk : bytes)
| PrintJSONError (line : bytes)
| PrintGenericError (e : exn) (line : bytes).

Fixpoint yielded (es : list effect) : list bytes :=
  match es with
  | [] => []
  | Yield b :: es' => b :: yielded es'
  | _ :: es' => yielded es'
  end.

Section NdjsonStream.

(** [json.loads] on a line of bytes and [json.dumps] on a value. *)
Variable json_loads : bytes -> result json.
Variable json_dumps : json -> str.

(** The [try] block, lines 124-131. *)
Definition try_line (line_bytes : bytes) : result bytes :=
  data <- json_loads line_bytes ;;
  data' <- line_transform data ;;
  encode_utf8 (json_dumps data' ++ [10%N]).   (* + "\n" *)

(** One iteration of the [for] loop, lines 119-139. *)
Definition loop_body (line_bytes : bytes) : list effect :=
  match line_bytes with
  | [] => []
  | _ :: _ =>
      match try_line line_bytes with
      | Ok chunk => [Yield chunk]
      | Raise JSONDecodeError => [PrintJSONError line_bytes]
      | Raise e => [PrintGenericError e line_bytes]
      end
  end.

Definition ndjson_effects (lines : list bytes) : list effect :=
  flat_map loop_body lines.

(** The chunks the generator yields over the lines of [resp.iter_lines()]. *)
Definition ndjson_stream (lines : list bytes) : list bytes :=
  yielded (ndjson_effects lines).

End NdjsonStream.

(** ** Header comprehensions *)

Module Header.

(** Header names and values are Latin-1 text. *)
Definition lower_char (a : ascii) : ascii :=
  let n := N_of_ascii a in
  if ((65 <=? n) && (n <=? 90)
      || (192 <=? n) && (n <=? 222) && negb (n =? 215))%N
  then ascii_of_N (n + 32) else a.

(** [str.lower] *)
Fixpoint lower (s : string) : string :=
  match s with
  | EmptyString => EmptyString
  | String a s' => String (lower_char a) (lower s')
  end.

Definition t : Type := list (string * string).

End Header.

(** [key.lower() != 'host'] *)
Definition not_host (kv : string * string) : bool :=
  negb (String.eqb (Header.lower (fst kv)) "host").

(** One entry of the dict comprehension. *)
Definition add_header (d : Header.t) (kv : string * string) : Header.t :=
  if not_host kv then Dict.set String.eqb d (fst kv) (snd kv) else d.

(** [{key: value for key, value in request.headers if key.lower() != 'host'}] *)
Definition forwarded_headers (request_headers : Header.t) : Header.t :=
  fold_left add_header request_headers [].

Definition excluded_headers : list string :=
  ["content-encoding"; "content-length"; "transfer-encoding"; "connection"]%string.

(** [[(name, value) for (name, value) in resp.raw.headers.items()
      if name.lower() not in excluded_headers]] *)
Definition response_headers (raw_headers : Header.t) : Header.t :=
  filter
    (fun nv => negb (existsb (String.eqb (Header.lower (fst nv))) excluded_headers))
    raw_headers.

(** ** The view functions *)

(** The parts of [flask.request] the views read. *)
Record request : Type := {
  method : string;
  headers : Header.t;           (* iteration of [request.headers] *)
  get_data : bytes;
  cookies : Header.t;
  args : Header.t               (* [request.args] *)
}.

(** The keyword arguments of one call of [requests.request] / [requests.post]. *)
Record outbound : Type := {
  o_method : string;
  o_url : string;
  o_headers : Header.t;
  o_data : bytes;
  o_cookies : Header.t;
  o_allow_redirects : bool;
  o_params : Header.t;
  o_stream : bool
}.

(** The parts of a [requests.Response] the views read: [resp.content] is the
    body read at once, [resp.iter_lines()] the lines of a streamed body. *)
Record backend_response : Type := {
  status_code : Z;
  raw_headers : Header.t;       (* [resp.raw.headers.items()] *)
  resp_content : bytes;
  iter_lines : list bytes
}.

Inductive body : Type :=
| Buffered (data : bytes)
| Streamed (chunks : list bytes).

(** [flask.Response(response, status, headers, mimetype)], as constructed. *)
Record response : Type := {
  r_body : body;
  r_status : option Z;
  r_headers : Header.t;
  r_mimetype : option string
}.

(** Flask answers 200 when no status is given. *)
Definition status (r : response) : Z :=
  match r_status r with
  | Some code => code
  | None => 200%Z
  end.

(** A view runs against the backend: it makes outbound calls, then returns
    or raises. *)
Definition action (A : Type) : Type := (list outbound * result A)%type.

Definition ret {A} (a : A) : action A := ([], Ok a).

Definition raise {A} (e : exn) : action A := ([], Raise e).

Definition and_then {A B} (c : action A) (k : A -> action B) : action B :=
  match c with
  | (calls, Ok a) => let (calls', r) := k a in (calls ++ calls', r)
  | (calls, Raise e) => (calls, Raise e)
  end.

Notation "x <~ c ;; k" := (and_then c (fun x => k))
  (at level 61, c at next level, right associativity).

Definition calls {A} (c : action A) : list outbound := fst c.
Definition outcome {A} (c : action A) : result A := snd c.

Section App.

(** [config["ollama"]["url"]] *)
Variable OLLAMA_URL : string.

(** The backend: what one outbound call returns or raises. *)
Variable backend : outbound -> result backend_response.

Variable json_loads : bytes -> result json.
Variable json_dumps : json -> str.

Definition requests_request (call : outbound) : action backend_response :=
  ([call], backend call).

Definition proxy_chat (req : request) : action response :=
  let headers := forwarded_headers (headers req) in
  resp <~ requests_request
            {| o_method := "POST";
               o_url := OLLAMA_URL ++ "/api/chat";
               o_headers := headers;
               o_data := get_data req;
               o_cookies := cookies req;
               o_allow_redirects := false;
               o_params := args req;
               o_stream := true |} ;;
  ret {| r_body := Streamed (ndjson_stream json_loads json_dumps (iter_lines resp));
         r_status := None;
         r_headers := [];
         r_mimetype := Some "application/x-ndjson; charset=utf-8"%string |}.

(** What a module-level name is bound to when a view runs. *)
Inductive global : Type :=
| View (f : request -> action response)   (* a function of no argument *)
| NotAView.                               (* anything else *)

(** The names bound by the module's imports, assignments and [def]s on
    every run.  A name that is looked up and is neither one of them nor a
    builtin raises [NameError]. *)
Definition module_globals : list (string * global) :=
  [("toml", NotAView); ("requests", NotAView); ("re", NotAView);
   ("Flask", NotAView); ("request", NotAView); ("jsonify", NotAView);
   ("Response", NotAView); ("json", NotAView); ("os", NotAView);
   ("APP_NAME", NotAView); ("CONFIG_FILE_NAME", NotAView);
   ("xdg_config_home", NotAView); ("CONFIG_DIR", NotAView);
   ("CONFIG_FILE", NotAView); ("config", NotAView);
   ("OLLAMA_URL", NotAView); ("app", NotAView);
   ("query_ollama", NotAView); ("remove_empty_think_tags", NotAView);
   ("proxy_chat", View proxy_chat); ("proxy_all", NotAView)]%string.

(** [name()]: the name is looked up when the call is reached. *)
Definition call_global (name : string) (req : request) : action response :=
  match Dict.get String.eqb module_globals name with
  | None => raise (NameError name)
  | Some (View f) => f req
  | Some NotAView => raise TypeError
  end.

Definition proxy_all (path : string) (req : request) : action response :=
  if String.eqb path "api/generate" && String.eqb (method req) "POST" then
    call_global "proxy_generate" req
  else if String.eqb path "api/chat" && String.eqb (method req) "POST" then
    call_global "proxy_chat" req
  else
    let url := (OLLAMA_URL ++ "/" ++ path)%string in
    let headers := forwarded_headers (headers req) in
    resp <~ requests_request
              {| o_method := method req;
                 o_url := url;
                 o_headers := headers;
                 o_data := get_data req;
                 o_cookies := cookies req;
                 o_allow_redirects := false;
                 o_params := args req;
                 o_stream := false |} ;;
    ret {| r_body := Buffered (resp_content resp);
           r_status := Some (status_code resp);
           r_headers := response_headers (raw_headers resp);
           r_mimetype := None |}.

End App.

(** ** A decoder and an encoder to run the stream on concrete lines *)

(** The results about the stream hold for any [json.loads] and [json.dumps].
    To run it on a line this module decodes and encodes the JSON texts the
    backend streams: UTF-8; objects, arrays, strings, integers, [true],
    [false], [null].  A line with a fraction, an exponent, [NaN] or
    [Infinity], or one in UTF-16 or UTF-32, is outside of it and is reported
    as a decoding error. *)
Module JsonText.

Local Open Scope N_scope.

(** [bytes.decode('utf-8', 'surrogatepass')] *)
Definition cont (b : byte) : option N :=
  let n := Byte.to_N b in
  if (128 <=? n) && (n <=? 191) then Some (n - 128) else None.

Fixpoint decode_utf8 (fuel : nat) (bs : bytes) : result str :=
  match fuel with
  | O => match bs with [] => Ok [] | _ => Raise UnicodeDecodeError end
  | S fuel' =>
      match bs with
      | [] => Ok []
      | b0 :: bs1 =>
          let n0 := Byte.to_N b0 in
          if n0 <? 128 then
            s <- decode_utf8 fuel' bs1 ;; Ok (n0 :: s)
          else if (194 <=? n0) && (n0 <=? 223) then
            match bs1 with
            | b1 :: bs2 =>
                match cont b1 with
                | Some c1 =>
                    s <- decode_utf8 fuel' bs2 ;;
                    Ok ((n0 - 192) * 64 + c1 :: s)
                | None => Raise UnicodeDecodeError
                end
            | _ => Raise UnicodeDecodeError
            end
          else if (224 <=? n0) && (n0 <=? 239) then
            match bs1 with
            | b1 :: b2 :: bs3 =>
                match cont b1, cont b2 with
                | Some c1, Some c2 =>
                    let c := (n0 - 224) * 4096 + c1 * 64 + c2 in
                    if c <? 2048 then Raise UnicodeDecodeError
                    else s <- decode_utf8 fuel' bs3 ;; Ok (c :: s)
                | _, _ => Raise UnicodeDecodeError
                end
            | _ => Raise UnicodeDecodeError
            end
          else if (240 <=? n0) && (n0 <=? 244) then
            match bs1 with
            | b1 :: b2 :: b3 :: bs4 =>
                match cont b1, cont b2, cont b3 with
                | Some c1, Some c2, Some c3 =>
                    let c := (n0 - 240) * 262144 + c1 * 4096 + c2 * 64 + c3 in
                    if (c <? 65536) || (1114111 <? c)
                    then Raise UnicodeDecodeError
                    else s <- decode_utf8 fuel' bs4 ;; Ok (c :: s)
                | _, _, _ => Raise UnicodeDecodeError
                end
            | _ => Raise UnicodeDecodeError
            end
          else Raise UnicodeDecodeError
      end
  end.

Definition is_ws (c : N) : bool :=
  (c =? 32) || (c =? 9) || (c =? 10) || (c =? 13).

Fixpoint skip_ws (s : str) : str :=
  match s with
  | c :: s' => if is_ws c then skip_ws s' else s
  | [] => []
  end.

Definition is_digit (c : N) : bool := (48 <=? c) && (c <=? 57).

Definition hex (c : N) : option N :=
  if is_digit c then Some (c - 48)
  else if (97 <=? c) && (c <=? 102) then Some (c - 87)
  else if (65 <=? c) && (c <=? 70) then Some (c - 55)
  else None.

Definition hex4 (a b c d : N) : option N :=
  match hex a, hex b, hex c, hex d with
  | Some x, Some y, Some z, Some w => Some (x * 4096 + y * 256 + z * 16 + w)
  | _, _, _, _ => None
  end.

(** The second half of a surrogate pair written as [\uXXXX], if any. *)
Definition low_surrogate (s : str) : option (N * str) :=
  match s with
  | 92 :: 117 :: a :: b :: c :: d :: s' =>
      match hex4 a b c d with
      | Some lo => if (56320 <=? lo) && (lo <=? 57343) then Some (lo, s') else None
      | None => None
      end
  | _ => None
  end.

(** The text of a string after its opening quote. *)
Fixpoint scan_string (fuel : nat) (s acc : str) : option (str * str) :=
  match fuel with
  | O => None
  | S fuel' =>
      match s with
      | [] => None
      | 34 :: s' => Some (rev acc, s')
      | 92 :: 117 :: a :: b :: c :: d :: s' =>
          match hex4 a b c d with
          | Some hi =>
              if (55296 <=? hi) && (hi <=? 56319) then
                match low_surrogate s' with
                | Some (lo, s'') =>
                    scan_string fuel' s''
                      (65536 + (hi - 55296) * 1024 + (lo - 56320) :: acc)
                | None => scan_string fuel' s' (hi :: acc)
                end
              else scan_string fuel' s' (hi :: acc)
          | None => None
          end
      | 92 :: e :: s' =>
          match (if (e =? 34) || (e =? 92) || (e =? 47) then Some e
                 else if e =? 98 then Some 8
                 else if e =? 102 then Some 12
                 else if e =? 110 then Some 10
                 else if e =? 114 then Some 13
                 else if e =? 116 then Some 9
                 else None) with
          | Some c => scan_string fuel' s' (c :: acc)
          | None => None
          end
      | c :: s' => if c <? 32 then None else scan_string fuel' s' (c :: acc)
      end
  end.

Fixpoint scan_digits (s : str) (acc : N) : N * str :=
  match s with
  | c :: s' => if is_digit c then scan_digits s' (acc * 10 + (c - 48)) else (acc, s)
  | [] => (acc, [])
  end.

(** An optional minus sign, then [0] or a run of digits that does not
    start with [0]; no fraction and no exponent after it. *)
Definition scan_int (s : str) : option (Z * str) :=
  let (neg, s1) := match s with 45 :: s' => (true, s') | _ => (false, s) end in
  match s1 with
  | c :: s2 =>
      if is_digit c then
        let (n, s3) := if c =? 48 then (0, s2) else scan_digits s1 0 in
        match s3 with
        | 46 :: d :: _ => if is_digit d then None else
                            Some (if neg then (- Z.of_N n)%Z else Z.of_N n, s3)
        | 101 :: _ | 69 :: _ => None
        | _ => Some (if neg then (- Z.of_N n)%Z else Z.of_N n, s3)
        end
      else None
  | [] => None
  end.

Fixpoint scan_value (fuel : nat) (s : str) : option (json * str) :=
  match fuel with
  | O => None
  | S fuel' =>
      match s with
      | 34 :: s' =>
          match scan_string (List.length s) s' [] with
          | Some (v, s'') => Some (JStr v, s'')
          | None => None
          end
      | 123 :: s' =>
          match skip_ws s' with
          | 125 :: s'' => Some (JDict [], s'')
          | s'' => scan_members fuel' s'' []
          end
      | 91 :: s' =>
          match skip_ws s' with
          | 93 :: s'' => Some (JList [], s'')
          | s'' => scan_elements fuel' s'' []
          end
      | 110 :: 117 :: 108 :: 108 :: s' => Some (JNull, s')
      | 116 :: 114 :: 117 :: 101 :: s' => Some (JBool true, s')
      | 102 :: 97 :: 108 :: 115 :: 101 :: s' => Some (JBool false, s')
      | _ =>
          match scan_int s with
          | Some (n, s') => Some (JInt n, s')
          | None => None
          end
      end
  end
with scan_members (fuel : nat) (s : str) (acc : list (str * json))
     : option (json * str) :=
  match fuel with
  | O => None
  | S fuel' =>
      match s with
      | 34 :: s1 =>
          match scan_string (List.length s) s1 [] with
          | Some (key, s2) =>
              match skip_ws s2 with
              | 58 :: s3 =>
                  match scan_value fuel' (skip_ws s3) with
                  | Some (v, s4) =>
                      let acc' := Dict.set str_eqb acc key v in
                      match skip_ws s4 with
                      | 125 :: s5 => Some (JDict acc', s5)
                      | 44 :: s5 => scan_members fuel' (skip_ws s5) acc'
                      | _ => None
                      end
                  | None => None
                  end
              | _ => None
              end
          | None => None
          end
      | _ => None
      end
  end
with scan_elements (fuel : nat) (s : str) (acc : list json)
     : option (json * str) :=
  match fuel with
  | O => None
  | S fuel' =>
      match scan_value fuel' s with
      | Some (v, s1) =>
          match skip_ws s1 with
          | 93 :: s2 => Some (JList (rev (v :: acc)), s2)
          | 44 :: s2 => scan_elements fuel' (skip_ws s2) (v :: acc)
          | _ => None
          end
      | None => None
      end
  end.

Definition loads (line : bytes) : result json :=
  s <- decode_utf8 (List.length line) line ;;
  match scan_value (S (List.length s)) (skip_ws s) with
  | Some (v, s') =>
      match skip_ws s' with
      | [] => Ok v
      | _ :: _ => Raise JSONDecodeError
      end
  | None => Raise JSONDecodeError
  end.

(** [json.dumps] with its defaults: ASCII only, [", "] and [": "]. *)
Definition hex_digit (n : N) : N := if n <? 10 then 48 + n else 87 + n.

Definition escape_u (c : N) : str :=
  [92; 117; hex_digit (c / 4096); hex_digit ((c / 256) mod 16);
   hex_digit ((c / 16) mod 16); hex_digit (c mod 16)].

Definition escape_char (c : N) : str :=
  if c =? 34 then [92; 34]
  else if c =? 92 then [92; 92]
  else if c =? 10 then [92; 110]
  else if c =? 13 then [92; 114]
  else if c =? 9 then [92; 116]
  else if c =? 8 then [92; 98]
  else if c =? 12 then [92; 102]
  else if (32 <=? c) && (c <=? 126) then [c]
  else if c <? 65536 then escape_u c
  else escape_u (55296 + (c - 65536) / 1024)
         ++ escape_u (56320 + (c - 65536) mod 1024).

Definition dumps_str (s : str) : str :=
  34 :: flat_map escape_char s ++ [34].

Definition dumps_int (n : Z) : str :=
  u (DecimalString.NilZero.string_of_int (Z.to_int n)).

Definition dumps_float (repr : str) : str :=
  if str_eqb repr (u "nan") then u "NaN"
  else if str_eqb repr (u "inf") then u "Infinity"
  else if str_eqb repr (u "-inf") then u "-Infinity"
  else repr.

Fixpoint dumps (v : json) : str :=
  match v with
  | JNull => u "null"
  | JBool true => u "true"
  | JBool false => u "false"
  | JInt n => dumps_int n
  | JFloat r => dumps_float r
  | JStr s => dumps_str s
  | JList l =>
      91 :: (fix items (l : list json) : str :=
               match l with
               | [] => []
               | [x] => dumps x
               | x :: l' => dumps x ++ u ", " ++ items l'
               end) l ++ [93]
  | JDict d =>
      123 :: (fix items (d : list (str * json)) : str :=
                match d with
                | [] => []
                | [(k, x)] => dumps_str k ++ u ": " ++ dumps x
                | (k, x) :: d' =>
                    dumps_str k ++ u ": " ++ dumps x ++ u ", " ++ items d'
                end) d ++ [125]
  end.

End JsonText.

(** The bytes of a text written with ['] in place of the double quote. *)
Definition bytes_of (s : string) : bytes :=
  map (fun c => if Byte.eqb c x27 then x22 else c) (list_byte_of_string s).

(** ** What the design document calls an empty think span *)

(** [o] reads [<think>] and [c] reads [</think>], letter case ignored. *)
Definition open_tag (o : str) : Prop :=
  Forall2 (fun p x => Re.ignorecase p x = true) (u "<think>") o.

Definition close_tag (c : str) : Prop :=
  Forall2 (fun p x => Re.ignorecase p x = true) (u "</think>") c.

(** Only whitespace (newlines included), possibly nothing. *)
Definition blank (w : str) : Prop :=
  Forall (fun x => Re.is_space x = true) w.

(** An opening tag, whitespace only, a closing tag. *)
Definition blank_span (e : str) : Prop :=
  exists o w c, e = o ++ w ++ c /\ open_tag o /\ blank w /\ close_tag c.

(** [s] has a blank span somewhere. *)
Definition has_blank_span (s : str) : Prop :=
  exists a e b, s = a ++ e ++ b /\ blank_span e.

(** [p0 e1 p1 ... en pn] and what is left of it without the [e]s. *)
Fixpoint weave (p0 : str) (segs : list (str * str)) : str :=
  match segs with
  | [] => p0
  | (e, p) :: segs' => p0 ++ e ++ weave p segs'
  end.

Fixpoint rest_of (p0 : str) (segs : list (str * str)) : str :=
  match segs with
  | [] => p0
  | (_, p) :: segs' => p0 ++ rest_of p segs'
  end.

(** [r] is an object whose [message] is an object whose [content] is the
    string [s]. *)
Definition has_content (r : json) (s : str) : Prop :=
  exists d m,
    r = JDict d
    /\ Dict.get str_eqb d message = Some (JDict m)
    /\ Dict.get str_eqb m content = Some (JStr s).

(** [r] with the string at [message.content] replaced by [s]. *)
Definition with_content (r : json) (s : str) : json :=
  match r with
  | JDict d =>
      match Dict.get str_eqb d message with
      | Some (JDict m) =>
          JDict (Dict.set str_eqb d message
                   (JDict (Dict.set str_eqb m content (JStr s))))
      | _ => r
      end
  | _ => r
  end.

(** [r] is an object that lacks [message], or whose [message] is an object
    that lacks [content]. *)
Definition missing_field (r : json) : Prop :=
  exists d,
    r = JDict d
    /\ (Dict.get str_eqb d message = None
        \/ exists m, Dict.get str_eqb d message = Some (JDict m)
                     /\ Dict.get str_eqb m content = None).

(** Code points below 128, which UTF-8 encodes as themselves. *)
Definition ascii_only (s : str) : Prop := Forall (fun c => (c < 128)%N) s.


(** ** Sample inputs *)

Module Sample.

Local Open Scope N_scope.

(** A chat record as the backend streams it, with the given content. *)
Definition chat (text : str) : json :=
  JDict [(u "model", JStr (u "llama3"));
         (message, JDict [(u "role", JStr (u "assistant")); (content, JStr text)]);
         (u "done", JBool false)].

(** [<THINK> \n</think>] and [<think></ThinK>] *)
Definition span1 : str := u "<THINK> " ++ [10] ++ u "</think>".
Definition span2 : str := u "<think></ThinK>".

(** A blank span cut in two by another one. *)
Definition spliced : str := u "<thi<think></think>nk></think>".

Definition reasoning : str := u "<think>reasoning</think>Hi".

Definition null_content : json := JDict [(message, JDict [(content, JNull)])].

Definition done_record : json := JDict [(u "done", JBool true)].

Definition null_content_line : bytes := bytes_of "{'message': {'content': null}}".
Definition done_line : bytes := bytes_of "{'done': true}".
Definition hello_line : bytes :=
  bytes_of "{'message': {'content': '<think>\n\n</think>Hello'}}".
Definition broken_line : bytes := bytes_of "{'message': {'content': 'He".

Definition request_headers : Header.t :=
  [("Host", "proxy:12434"); ("Accept", "*/*"); ("Content-Type", "application/json")]%string.

Definition backend_headers : Header.t :=
  [("Content-Type", "application/json"); ("Content-Length", "17");
   ("Location", "/elsewhere"); ("Set-Cookie", "a=1"); ("Set-Cookie", "b=2");
   ("CONNECTION", "close")]%string.

Definition get_tags : request :=
  {| method := "GET"; headers := request_headers; get_data := [];
     cookies := []; args := [("verbose", "1")]%string |}.

Definition post_chat : request :=
  {| method := "POST"; headers := request_headers;
     get_data := bytes_of "{'model': 'llama3', 'messages': []}";
     cookies := []; args := [] |}.

Definition post_generate : request :=
  {| method := "POST"; headers := request_headers;
     get_data := bytes_of "{'model': 'llama3', 'prompt': 'hi', 'stream': true}";
     cookies := []; args := [] |}.

(** A backend that answers every call with a redirect. *)
Definition redirecting (call : outbound) : result backend_response :=
  Ok {| status_code := 302%Z; raw_headers := backend_headers;
        resp_content := bytes_of "{'moved': true}";
        iter_lines := [bytes_of "{'moved': true}"] |}.

(** A backend that answers every call with an error status and two lines. *)
Definition failing (call : outbound) : result backend_response :=
  Ok {| status_code := 500%Z; raw_headers := backend_headers;
        resp_content := [];
        iter_lines := [hello_line; done_line] |}.

Definition url : string := "http://localhost:11434".

End Sample.

(** ** Further notions used in the statements *)

(** [t] is [s] with some elements left out, the others in their order. *)
Inductive subseq {A : Type} : list A -> list A -> Prop :=
| subseq_nil : subseq [] []
| subseq_keep (x : A) (t s : list A) : subseq t s -> subseq (x :: t) (x :: s)
| subseq_drop (x : A) (t s : list A) : subseq t s -> subseq t (x :: s).

(** [if not line_bytes] is false. *)
Definition nonempty (line : bytes) : bool :=
  match line with
  | [] => false
  | _ :: _ => true
  end.

(** [None], a [bool], an [int] or a [float]. *)
Definition scalar (r : json) : Prop :=
  match r with
  | JNull | JBool _ | JInt _ | JFloat _ => True
  | JStr _ | JList _ | JDict _ => False
  end.

(** Two characters that are the same, or the two cases of one ASCII letter. *)
Definition same_letter (a b : ascii) : bool :=
  let x := N_of_ascii a in
  let y := N_of_ascii b in
  ((x =? y)
   || (65 <=? x) && (x <=? 90) && (y =? x + 32)
   || (65 <=? y) && (y <=? 90) && (x =? y + 32))%N.

(** Two names that differ at most in the case of their ASCII letters. *)
Fixpoint iequal (s t : string) : bool :=
  match s, t with
  | EmptyString, EmptyString => true
  | String a s', String b t' => same_letter a b && iequal s' t'
  | _, _ => false
  end.

(** ** Start-up: the configuration file (lines 20-57) *)

Module Config.

Definition APP_NAME : string := "haollama-proxy".
Definition CONFIG_FILE_NAME : string := "haollama-proxy.toml".

(** [b.startswith('/')] and [a.endswith('/')] *)
Definition starts_with_sep (b : string) : bool :=
  match b with
  | String c _ => Ascii.eqb c "/"
  | EmptyString => false
  end.

Fixpoint ends_with_sep (a : string) : bool :=
  match a with
  | EmptyString => false
  | String c EmptyString => Ascii.eqb c "/"
  | String _ a' => ends_with_sep a'
  end.

(** [os.path.join(a, b)] of [posixpath]; with more components it is
    applied from the left. *)
Definition join (a b : string) : string :=
  if starts_with_sep b then b
  else if String.eqb a EmptyString || ends_with_sep a then a ++ b
  else a ++ "/" ++ b.

(** The values [toml.load] produces. *)
#[warnings="-register-all"]
Inductive toml : Type :=
| TStr (s : string)
| TInt (n : Z)
| TFloat (repr : string)
| TBool (b : bool)
| TDatetime (text : string)
| TArray (l : list toml)
| TTable (t : list (string * toml)).

(** [v[key]] for a string key. *)
Definition item (v : toml) (key : string) : result toml :=
  match v with
  | TTable t =>
      match Dict.get String.eqb t key with
      | Some x => Ok x
      | None => Raise KeyError
      end
  | _ => Raise TypeError
  end.

(** What [toml.load(CONFIG_FILE)] does: it returns a dict, raises
    [FileNotFoundError], or raises another exception. *)
Inductive load_outcome : Type :=
| Parsed (config : list (string * toml))
| FileNotFound
| LoadFailed.

(** The surroundings the module-level code runs in. *)
Record system : Type := {
  xdg_config_home : option string;   (* [os.environ.get('XDG_CONFIG_HOME')] *)
  home : string;                     (* [os.path.expanduser("~")] *)
  makedirs : string -> bool;         (* [os.makedirs(dir, exist_ok=True)] returns *)
  toml_load : string -> load_outcome;
  open_w : string -> bool            (* [open(file, "w")] and the dump return *)
}.

Definition CONFIG_DIR (sys : system) : string :=
  match xdg_config_home sys with
  | Some x =>
      if String.eqb x EmptyString
      then join (join (home sys) ".config") APP_NAME
      else join x APP_NAME
  | None => join (join (home sys) ".config") APP_NAME
  end.

Definition CONFIG_FILE (sys : system) : string :=
  join (CONFIG_DIR sys) CONFIG_FILE_NAME.

Definition default_config : list (string * toml) :=
  [("ollama", TTable [("url", TStr "http://localhost:11434")]);
   ("proxy", TTable [("host", TStr "0.0.0.0"); ("port", TInt 12434)])]%string.

(** The dict of the second handler. *)
Definition fallback_config : list (string * toml) :=
  [("ollama", TTable [("url", TStr "http://localhost:11434")]);
   ("proxy", TTable [("host", TStr "0.0.0.0"); ("port", TInt 12434)])]%string.

Inductive startup_effect : Type :=
| Makedirs (dir : string)
| PrintNotFound (file : string)
| PrintLoadError (file : string)
| WriteFile (file : string) (config : list (string * toml)).

Inductive startup_error : Type :=
| OSError
| Lookup (e : exn).

(** The module is imported with [config] and [OLLAMA_URL] bound, or the
    import dies. *)
Inductive startup : Type :=
| Up (config : list (string * toml)) (OLLAMA_URL : toml)
| Down (e : startup_error).

(** [OLLAMA_URL = config["ollama"]["url"]] *)
Definition bind_url (effects : list startup_effect)
    (config : list (string * toml)) : list startup_effect * startup :=
  match (o <- item (TTable config) "ollama" ;; item o "url") with
  | Ok url => (effects, Up config url)
  | Raise e => (effects, Down (Lookup e))
  end.

(** Lines 24-57. *)
Definition module_start (sys : system) : list startup_effect * startup :=
  let dir := CONFIG_DIR sys in
  let file := CONFIG_FILE sys in
  if makedirs sys dir then
    match toml_load sys file with
    | Parsed config => bind_url [Makedirs dir] config
    | FileNotFound =>
        if open_w sys file then
          bind_url [Makedirs dir; PrintNotFound file; WriteFile file default_config]
            default_config
        else ([Makedirs dir; PrintNotFound file], Down OSError)
    | LoadFailed => bind_url [Makedirs dir; PrintLoadError file] fallback_config
    end
  else ([], Down OSError).

(** The arguments of [app.run], line 182. *)
Definition listen (config : list (string * toml)) : result (toml * toml) :=
  p <- item (TTable config) "proxy" ;;
  host <- item p "host" ;;
  p' <- item (TTable config) "proxy" ;;
  port <- item p' "port" ;;
  Ok (host, port).

End Config.

(** ** [query_ollama] (lines 61-77) *)

(** The arguments of [requests.post(url, json=data)]. *)
Record json_post : Type := {
  jp_url : string;
  jp_json : json
}.

(** What a call of [query_ollama] comes to. *)
Inductive query_result : Type :=
| Returned (v : json)
| HTTPError (status : Z)         (* from [raise_for_status] *)
| AttributeError                 (* [.get] on a value that is no dict *)
| QueryRaised (e : exn).         (* from the call or from [response.json()] *)

Section Query.

Variable OLLAMA_URL : string.
Variable requests_post : json_post -> result backend_response.
Variable response_json : bytes -> result json.

(** [raise_for_status] raises for a 4xx or 5xx status. *)
Definition error_status (code : Z) : bool :=
  ((400 <=? code) && (code <? 600))%Z.

Definition query_ollama (prompt : json) : list json_post * query_result :=
  let data := JDict [(u "prompt", prompt)] in
  let call := {| jp_url := (OLLAMA_URL ++ "/api/generate")%string;
                 jp_json := data |} in
  ([call],
   match requests_post call with
   | Raise e => QueryRaised e
   | Ok response =>
       if error_status (status_code response)
       then HTTPError (status_code response)
       else
         match response_json (resp_content response) with
         | Raise e => QueryRaised e
         | Ok (JDict d) =>
             Returned (match Dict.get str_eqb d (u "response") with
                       | Some v => v
                       | None => JStr []
                       end)
         | Ok _ => AttributeError
         end
   end).

End Query.

(** ** Notions used in the proofs *)

(** [P] holds of every number below [n]. *)
Fixpoint all_below (n : nat) (P : N -> bool) : bool :=
  match n with
  | O => true
  | S n' => P (N.of_nat n') && all_below n' P
  end.

(** ASCII, and no capital letter. *)
Definition plain_char (b : ascii) : bool :=
  let y := N_of_ascii b in
  ((y <? 128) && negb ((65 <=? y) && (y <=? 90)))%N.

Fixpoint plain_name (n : string) : bool :=
  match n with
  | EmptyString => true
  | String b n' => plain_char b && plain_name n'
  end.

(** The call of [proxy_chat] and the call of the last branch of [proxy_all]. *)
Definition chat_call (OLLAMA_URL : string) (req : request) : outbound :=
  {| o_method := "POST";
     o_url := (OLLAMA_URL ++ "/api/chat")%string;
     o_headers := forwarded_headers (headers req);
     o_data := get_data req;
     o_cookies := cookies req;
     o_allow_redirects := false;
     o_params := args req;
     o_stream := true |}.

Definition generic_call (OLLAMA_URL path : string) (req : request) : outbound :=
  {| o_method := method req;
     o_url := (OLLAMA_URL ++ "/" ++ path)%string;
     o_headers := forwarded_headers (headers req);
     o_data := get_data req;
     o_cookies := cookies req;
     o_allow_redirects := false;
     o_params := args req;
     o_stream := false |}.


(** ** Repeated names and repeated query keys *)



(** [request.args] is a werkzeug [MultiDict] over the pairs of the query
    string; [args] holds those pairs in their order.  [requests] reads a
    mapping given as [params] through its [items()], and the [items()] of a
    [MultiDict] gives every key once, with the first of its values. *)
Definition multidict_items (pairs : Header.t) : Header.t :=
  fold_left
    (fun d kv => if Dict.mem String.eqb d (fst kv) then d else d ++ [kv])
    pairs [].

(** The query pairs [requests] puts on the URL of a call. *)
Definition query_sent (call : outbound) : Header.t :=
  multidict_items (o_params call).

(** [GET /api/tags?a=1&a=2] *)
Definition get_tags_repeated_key : request :=
  {| method := "GET";
     headers := [("Host", "proxy:12434"); ("Accept", "*/*")]%string;
     get_data := [];
     cookies := [];
     args := [("a", "1"); ("a", "2")]%string |}.



(** * Proofs *)

(** ** The matcher *)

Module ReFacts.
Import Re.

Lemma repeat_eq (q : list item) (s : str) :
  match_here (MAX_REPEAT_SPACE :: q) s =
  match s with
  | c :: s' =>
      if is_space c then
        match match_here (MAX_REPEAT_SPACE :: q) s' with
        | Some rest => Some rest
        | None => match_here q s
        end
      else match_here q s
  | [] => match_here q s
  end.
Proof. destruct s; reflexivity. Qed.

(** A run of literals matches exactly the texts that agree with it letter
    by letter. *)
Lemma literals_sound (lits : str) (q : list item) :
  forall s r,
    match_here (map LITERAL lits ++ q) s = Some r ->
    exists o t,
      s = o ++ t
      /\ Forall2 (fun p x => ignorecase p x = true) lits o
      /\ match_here q t = Some r.
Proof.
  induction lits as [|p lits IH]; intros s r H.
  - exists [], s. auto.
  - destruct s as [|c s]; [discriminate|].
    cbn [map app match_here] in H.
    destruct (ignorecase p c) eqn:Hc; [|discriminate].
    destruct (IH _ _ H) as (o & t & -> & Ho & Ht).
    exists (c :: o), t. auto.
Qed.

Lemma literals_complete (lits : str) (q : list item) :
  forall o t,
    Forall2 (fun p x => ignorecase p x = true) lits o ->
    match_here (map LITERAL lits ++ q) (o ++ t) = match_here q t.
Proof.
  induction lits as [|p lits IH]; intros o t Ho; inversion Ho; subst.
  - reflexivity.
  - cbn [map app match_here]. rewrite H1. auto.
Qed.

Lemma repeat_sound (q : list item) :
  forall s r,
    match_here (MAX_REPEAT_SPACE :: q) s = Some r ->
    exists w t,
      s = w ++ t /\ Forall (fun x => is_space x = true) w
      /\ match_here q t = Some r.
Proof.
  induction s as [|c s IH]; intros r H; rewrite repeat_eq in H.
  - exists [], []. auto.
  - destruct (is_space c) eqn:Hc.
    + destruct (match_here (MAX_REPEAT_SPACE :: q) s) as [r0|] eqn:Hs.
      * injection H as <-.
        destruct (IH _ eq_refl) as (w & t & -> & Hw & Ht).
        exists (c :: w), t. auto.
      * exists [], (c :: s). auto.
    + exists [], (c :: s). auto.
Qed.

(** When what follows [\s*] cannot start with whitespace, the greedy
    repeat takes all of a whitespace run. *)
Lemma repeat_complete (q : list item) :
  (forall x t, is_space x = true -> match_here q (x :: t) = None) ->
  forall w t r,
    Forall (fun x => is_space x = true) w ->
    match_here q t = Some r ->
    match_here (MAX_REPEAT_SPACE :: q) (w ++ t) = Some r.
Proof.
  intros Hq w t r Hw Ht.
  induction Hw as [|x w Hx Hw IH]; rewrite repeat_eq.
  - cbn [app]. destruct t as [|c t]; [assumption|].
    destruct (is_space c) eqn:Hc; [|assumption].
    rewrite Hq in Ht by assumption. discriminate.
  - cbn [app]. rewrite Hx, IH. reflexivity.
Qed.

(** A run of literals none of which matches [<] cannot read past a [<]. *)
Lemma literals_stop (lits : str) (q : list item) :
  (forall p, In p lits -> ignorecase p 60 = false) ->
  forall x y r,
    match_here (map LITERAL lits ++ q) (x ++ 60%N :: y) = Some r ->
    exists x1 x2,
      x = x1 ++ x2
      /\ Forall2 (fun p c => ignorecase p c = true) lits x1
      /\ match_here q (x2 ++ 60%N :: y) = Some r.
Proof.
  induction lits as [|p lits IH]; intros Hl x y r H.
  - exists [], x. auto.
  - destruct x as [|c x]; cbn [map app match_here] in H.
    + rewrite Hl in H by (left; reflexivity). discriminate.
    + destruct (ignorecase p c) eqn:Hc; [|discriminate].
      destruct (IH (fun p' Hp' => Hl p' (or_intror Hp')) _ _ _ H)
        as (x1 & x2 & -> & H1 & H2).
      exists (c :: x1), x2. auto.
Qed.

End ReFacts.

(** ** The think pattern *)

Module ThinkFacts.
Import Re ReFacts.

Lemma think_pattern_eq :
  think_pattern
  = map LITERAL (u "<think>") ++ MAX_REPEAT_SPACE :: (close_items ++ []).
Proof. reflexivity. Qed.

Lemma close_not_space x t :
  is_space x = true -> match_here (close_items ++ []) (x :: t) = None.
Proof.
  intros Hx. cbn [close_items u map list_ascii_of_string app match_here].
  destruct (ignorecase _ x) eqn:Hc; [|reflexivity].
  change (N_of_ascii "<") with 60%N in Hc.
  apply N.eqb_eq in Hc. subst x. discriminate.
Qed.

(** A successful match at the head of [s] is a blank span. *)
Lemma match_sound s r :
  match_here think_pattern s = Some r ->
  exists e, s = e ++ r /\ blank_span e.
Proof.
  rewrite think_pattern_eq. intros H.
  apply literals_sound in H. destruct H as (o & t & -> & Ho & H).
  apply repeat_sound in H. destruct H as (w & t' & -> & Hw & H).
  apply literals_sound in H. destruct H as (c & t'' & -> & Hc & H).
  injection H as ->.
  exists (o ++ w ++ c). split.
  - now rewrite <- !app_assoc.
  - exists o, w, c. auto.
Qed.

(** A blank span at the head of the text is matched whole. *)
Lemma match_complete e r :
  blank_span e -> match_here think_pattern (e ++ r) = Some r.
Proof.
  intros (o & w & c & -> & Ho & Hw & Hc).
  rewrite think_pattern_eq, <- !app_assoc.
  rewrite (@literals_complete _ _ _ _ Ho).
  apply repeat_complete; [exact close_not_space | exact Hw |].
  now rewrite (@literals_complete _ _ _ _ Hc).
Qed.

Lemma blank_span_length e : blank_span e -> 15 <= List.length e.
Proof.
  intros (o & w & c & -> & Ho & Hw & Hc).
  apply Forall2_length in Ho. apply Forall2_length in Hc.
  rewrite !length_app. cbn in Ho, Hc. lia.
Qed.

Lemma match_shortens s r :
  match_here think_pattern s = Some r -> List.length r < List.length s.
Proof.
  intros H. apply match_sound in H. destruct H as (e & -> & He).
  apply blank_span_length in He. rewrite length_app. lia.
Qed.

(** The first two characters of a blank span. *)
Lemma blank_span_head e :
  blank_span e ->
  exists o1 y, e = 60%N :: o1 :: y /\ ignorecase 47 o1 = false.
Proof.
  intros (o & w & c & -> & Ho & _ & _).
  inversion Ho as [|p0 x0 l0 o' H0 Ho0]; subst.
  inversion Ho0 as [|p1 x1 l1 o'' H1 Ho1]; subst.
  change (N_of_ascii "<") with 60%N in H0.
  apply N.eqb_eq in H0. subst x0.
  exists x1, (o'' ++ w ++ c). split; [reflexivity|].
  change (N_of_ascii "t") with 116%N in H1.
  unfold ignorecase in H1. cbn in H1.
  rewrite !orb_false_r in H1. apply orb_true_iff in H1.
  destruct H1 as [H1|H1]; apply N.eqb_eq in H1; subst x1; reflexivity.
Qed.

Lemma after_lt_stop : forall p, In p (u "think>") -> ignorecase p 60 = false.
Proof.
  intros p Hp. cbn in Hp.
  repeat (destruct Hp as [<-|Hp]; [reflexivity|]). destruct Hp.
Qed.

Lemma after_lt_slash_stop :
  forall p, In p (u "/think>") -> ignorecase p 60 = false.
Proof.
  intros p Hp. cbn in Hp.
  repeat (destruct Hp as [<-|Hp]; [reflexivity|]). destruct Hp.
Qed.

(** A closing tag read from inside [x] ends inside [x] when a blank span
    follows [x]. *)
Lemma close_stays x o1 y r :
  x <> [] ->
  match_here (close_items ++ []) (x ++ 60%N :: o1 :: y) = Some r ->
  exists r', match_here (close_items ++ []) x = Some r'.
Proof.
  intros Hx H. destruct x as [|c x]; [congruence|].
  change (close_items ++ [])
    with (LITERAL 60 :: (map LITERAL (u "/think>") ++ [])) in *.
  cbn [app match_here] in *.
  destruct (ignorecase 60 c); [|discriminate].
  apply (literals_stop _ _ after_lt_slash_stop) in H.
  destruct H as (x1 & x2 & -> & H1 & _).
  exists x2. now rewrite (@literals_complete _ _ _ _ H1).
Qed.

Lemma repeat_stays o1 y r :
  ignorecase 47 o1 = false ->
  forall x,
    match_here (MAX_REPEAT_SPACE :: (close_items ++ []))
      (x ++ 60%N :: o1 :: y) = Some r ->
    exists r', match_here (MAX_REPEAT_SPACE :: (close_items ++ [])) x = Some r'.
Proof.
  intros Ho1. induction x as [|c x IH]; intros H; rewrite repeat_eq in H.
  - exfalso. cbn [app] in H. change (is_space 60) with false in H.
    cbn [close_items u map list_ascii_of_string app match_here] in H.
    change (N_of_ascii "<") with 60%N in H.
    change (N_of_ascii "/") with 47%N in H.
    change (ignorecase 60 60) with true in H. cbv iota in H.
    rewrite Ho1 in H. discriminate.
  - cbn [app] in H. rewrite repeat_eq.
    destruct (is_space c) eqn:Hc.
    + destruct (match_here _ (x ++ _)) as [r0|] eqn:Hs.
      * destruct (IH H) as [r' ->]. eauto.
      * rewrite (@close_not_space c _ Hc) in H. discriminate.
    + change (c :: x ++ 60%N :: o1 :: y) with ((c :: x) ++ 60%N :: o1 :: y) in H.
      apply close_stays in H; [|discriminate].
      destruct H as [r' H].
      destruct (match_here _ x); eauto.
Qed.

(** A match that starts before a blank span ends before it: two blank
    spans never overlap. *)
Lemma match_stays x e t r :
  x <> [] -> blank_span e ->
  match_here think_pattern (x ++ e ++ t) = Some r ->
  exists r', match_here think_pattern x = Some r'.
Proof.
  intros Hx He H.
  destruct (blank_span_head He) as (o1 & y & -> & Ho1).
  destruct x as [|c x]; [congruence|].
  change think_pattern
    with (LITERAL 60 :: (map LITERAL (u "think>")
                           ++ MAX_REPEAT_SPACE :: (close_items ++ []))) in *.
  cbn [app match_here] in *.
  destruct (ignorecase 60 c); [|discriminate].
  apply (literals_stop _ _ after_lt_stop) in H.
  destruct H as (x1 & x2 & -> & H1 & H2).
  apply (repeat_stays _ _ Ho1) in H2. destruct H2 as [r' H2].
  exists r'. now rewrite (@literals_complete _ _ _ _ H1).
Qed.

End ThinkFacts.

(** ** The substitution *)

Module SubFacts.
Import Re ThinkFacts.

(** Any fuel not below the length of the text gives the same result. *)
Lemma sub_loop_fuel n :
  forall m s,
    List.length s <= n -> List.length s <= m ->
    sub_loop think_pattern n s = sub_loop think_pattern m s.
Proof.
  induction n as [|n IH]; intros m s Hn Hm.
  - destruct s; [|cbn in Hn; lia]. destruct m; reflexivity.
  - destruct m as [|m].
    + destruct s; [reflexivity | cbn in Hm; lia].
    + destruct s as [|c s]; [reflexivity|]. cbn [sub_loop].
      destruct (match_here think_pattern (c :: s)) as [r|] eqn:Hr.
      * apply match_shortens in Hr. cbn in Hn, Hm, Hr. apply IH; lia.
      * f_equal. cbn in Hn, Hm. apply IH; lia.
Qed.

Lemma strip_nil : sub_think [] = [].
Proof. reflexivity. Qed.

Lemma strip_cons c s :
  sub_think (c :: s) =
  match match_here think_pattern (c :: s) with
  | Some r => sub_think r
  | None => c :: sub_think s
  end.
Proof.
  unfold sub_think, sub. cbn [List.length sub_loop].
  destruct (match_here think_pattern (c :: s)) as [r|] eqn:Hr.
  - apply match_shortens in Hr. cbn in Hr. apply sub_loop_fuel; lia.
  - reflexivity.
Qed.

Lemma strip_length s : List.length (sub_think s) <= List.length s.
Proof.
  remember (List.length s) as n eqn:Hn.
  revert s Hn. induction n as [n IH] using lt_wf_ind. intros s ->.
  destruct s as [|c s]; [rewrite strip_nil; cbn; lia|].
  rewrite strip_cons.
  destruct (match_here think_pattern (c :: s)) as [r|] eqn:Hr.
  - apply match_shortens in Hr.
    specialize (IH _ Hr r eq_refl). lia.
  - cbn [List.length]. specialize (IH (List.length s) (Nat.lt_succ_diag_r _) s eq_refl).
    lia.
Qed.

Lemma no_span_tail c s : ~ has_blank_span (c :: s) -> ~ has_blank_span s.
Proof.
  intros H (a & e & b & -> & He). apply H. exists (c :: a), e, b. auto.
Qed.

Lemma no_span_no_match s r :
  ~ has_blank_span s -> match_here think_pattern s = Some r -> False.
Proof.
  intros H Hr. apply match_sound in Hr. destruct Hr as (e & -> & He).
  apply H. exists [], e, r. auto.
Qed.

(** Without a blank span the text is kept as it is. *)
Lemma strip_no_span s : ~ has_blank_span s -> sub_think s = s.
Proof.
  induction s as [|c s IH]; intros H; [reflexivity|].
  rewrite strip_cons.
  destruct (match_here think_pattern (c :: s)) as [r|] eqn:Hr.
  - destruct (no_span_no_match H Hr).
  - f_equal. apply IH. exact (no_span_tail H).
Qed.

(** With a blank span the text gets shorter. *)
Lemma strip_shrinks s :
  has_blank_span s -> List.length (sub_think s) < List.length s.
Proof.
  intros (a & e & b & -> & He).
  induction a as [|c a IH].
  - cbn [app]. pose proof (blank_span_length He) as Hl.
    destruct e as [|c e]; [cbn in Hl; lia|].
    cbn [app]. rewrite strip_cons.
    change (c :: e ++ b) with ((c :: e) ++ b).
    rewrite (match_complete b He).
    pose proof (strip_length b). rewrite length_app. lia.
  - cbn [app]. rewrite strip_cons.
    destruct (match_here think_pattern (c :: a ++ e ++ b)) as [r|] eqn:Hr.
    + apply match_shortens in Hr. pose proof (strip_length r). lia.
    + cbn [List.length]. lia.
Qed.

Lemma strip_fixed_iff s : sub_think s = s <-> ~ has_blank_span s.
Proof.
  split.
  - intros Hs H. apply strip_shrinks in H. rewrite Hs in H. lia.
  - apply strip_no_span.
Qed.

(** The scan keeps a span-free prefix and drops the blank span after it. *)
Lemma strip_prefix x e t :
  ~ has_blank_span x -> blank_span e ->
  sub_think (x ++ e ++ t) = x ++ sub_think t.
Proof.
  intros Hx He. induction x as [|c x IH].
  - cbn [app]. pose proof (blank_span_length He) as Hl.
    destruct e as [|c e]; [cbn in Hl; lia|].
    cbn [app]. rewrite strip_cons.
    change (c :: e ++ t) with ((c :: e) ++ t).
    now rewrite (match_complete t He).
  - cbn [app]. rewrite strip_cons.
    destruct (match_here think_pattern (c :: x ++ e ++ t)) as [r|] eqn:Hr.
    + exfalso.
      change (c :: x ++ e ++ t) with ((c :: x) ++ e ++ t) in Hr.
      apply match_stays in Hr; [|discriminate|exact He].
      destruct Hr as [r' Hr]. exact (no_span_no_match Hx Hr).
    + f_equal. apply IH. exact (no_span_tail Hx).
Qed.

Lemma strip_weave segs :
  forall p0,
    ~ has_blank_span p0 ->
    Forall (fun ep => blank_span (fst ep) /\ ~ has_blank_span (snd ep)) segs ->
    sub_think (weave p0 segs) = rest_of p0 segs.
Proof.
  induction segs as [|[e p] segs IH]; intros p0 H0 Hs.
  - now apply strip_no_span.
  - inversion Hs as [|? ? [He Hp] Hs']; subst. cbn [weave rest_of].
    rewrite strip_prefix by assumption. f_equal. now apply IH.
Qed.

End SubFacts.

(** ** Dictionaries *)

Module DictFacts.

Section Assoc.
Context {K V : Type} (eqb : K -> K -> bool).
Hypothesis eqb_refl : forall k, eqb k k = true.

Lemma set_same (d : list (K * V)) k v :
  Dict.get eqb d k = Some v -> Dict.set eqb d k v = d.
Proof.
  induction d as [|[k' v'] d IH]; cbn; [discriminate|].
  destruct (eqb k' k); [now intros [= ->] | intros H; now rewrite IH].
Qed.

Lemma get_set (d : list (K * V)) k v :
  Dict.get eqb (Dict.set eqb d k v) k = Some v.
Proof.
  induction d as [|[k' v'] d IH]; cbn.
  - now rewrite eqb_refl.
  - destruct (eqb k' k) eqn:E; cbn; now rewrite E.
Qed.

Lemma set_set (d : list (K * V)) k v v' :
  Dict.set eqb (Dict.set eqb d k v) k v' = Dict.set eqb d k v'.
Proof.
  induction d as [|[k' w] d IH]; cbn.
  - now rewrite eqb_refl.
  - destruct (eqb k' k) eqn:E; cbn; rewrite E; [reflexivity | now rewrite IH].
Qed.
End Assoc.

Lemma str_eqb_refl s : str_eqb s s = true.
Proof. induction s; cbn; [reflexivity | now rewrite N.eqb_refl]. Qed.

End DictFacts.

(** ** The line transform *)

Module TransformFacts.
Import DictFacts SubFacts.

Lemma has_content_fun r s s' : has_content r s -> has_content r s' -> s = s'.
Proof.
  intros (d & m & -> & Hm & Hc) (d' & m' & [= <-] & Hm' & Hc').
  congruence.
Qed.

Lemma has_content_with r s t :
  has_content r s -> has_content (with_content r t) t.
Proof.
  intros (d & m & -> & Hm & Hc). unfold with_content. rewrite Hm.
  eexists _, _. split; [reflexivity|].
  split; apply get_set; apply str_eqb_refl.
Qed.

Lemma with_content_same r s : has_content r s -> with_content r s = r.
Proof.
  intros (d & m & -> & Hm & Hc). unfold with_content. rewrite Hm.
  now rewrite (set_same _ _ _ Hc), (set_same _ _ _ Hm).
Qed.

Lemma with_content_twice r s t t' :
  has_content r s ->
  with_content (with_content r t) t' = with_content r t'.
Proof.
  intros (d & m & -> & Hm & Hc). unfold with_content. rewrite Hm.
  rewrite (get_set _ str_eqb_refl).
  now rewrite !(set_set _ str_eqb_refl).
Qed.

(** On the expected shape, the content goes through the substitution. *)
Lemma line_transform_content r s :
  has_content r s -> line_transform r = Ok (with_content r (sub_think s)).
Proof.
  intros (d & m & -> & Hm & Hc).
  unfold line_transform, with_content, contains, getitem, Dict.mem.
  rewrite Hm. cbn [bind]. rewrite Hc. reflexivity.
Qed.

(** When the transform returns, either the content went through the
    substitution or the record is returned as it is. *)
Lemma line_transform_inv r r' :
  line_transform r = Ok r' ->
  (exists s, has_content r s /\ r' = with_content r (sub_think s))
  \/ (r' = r /\ forall s, ~ has_content r s).
Proof.
  unfold line_transform. intros H.
  destruct r as [| | | |s0|l|d]; try discriminate H; cbn [contains bind] in H.
  - destruct (str_contains s0 message); [discriminate H|].
    injection H as <-. right. split; [reflexivity|].
    intros s (d & m & [=] & _).
  - destruct (existsb _ l); [discriminate H|].
    injection H as <-. right. split; [reflexivity|].
    intros s (d & m & [=] & _).
  - unfold Dict.mem, getitem in H.
    destruct (Dict.get str_eqb d message) as [m|] eqn:Hm; cbn [bind] in H.
    + destruct m as [| | | |s0|l|dm]; try discriminate H; cbn [contains bind] in H.
      * destruct (str_contains s0 content); [discriminate H|].
        injection H as <-. right. split; [reflexivity|].
        intros s (d' & m' & [= <-] & Hm' & _). congruence.
      * destruct (existsb _ l); [discriminate H|].
        injection H as <-. right. split; [reflexivity|].
        intros s (d' & m' & [= <-] & Hm' & _). congruence.
      * unfold Dict.mem in H.
        destruct (Dict.get str_eqb dm content) as [c|] eqn:Hc; cbn [bind] in H.
        -- destruct c as [| | | |s| |]; try discriminate H.
           cbn in H. injection H as <-. left. exists s. split.
           ++ exists d, dm. auto.
           ++ unfold with_content. now rewrite Hm.
        -- injection H as <-. right. split; [reflexivity|].
           intros s (d' & m' & [= <-] & Hm' & Hc'). congruence.
    + injection H as <-. right. split; [reflexivity|].
      intros s (d' & m' & [= <-] & Hm' & _). congruence.
Qed.

Lemma line_transform_missing r : missing_field r -> line_transform r = Ok r.
Proof.
  intros (d & -> & [Hm | (m & Hm & Hc)]);
    unfold line_transform, contains, getitem, Dict.mem; rewrite Hm;
    cbn [bind]; [reflexivity|].
  now rewrite Hc.
Qed.

End TransformFacts.

(** ** The stream *)

Module StreamFacts.

Lemma encode_ascii s :
  ascii_only s -> encode_utf8 s = Ok (map byte_of s).
Proof.
  induction 1 as [|c s Hc _ IH]; [reflexivity|].
  cbn [encode_utf8 map]. unfold utf8_char.
  apply N.ltb_lt in Hc. rewrite Hc. cbn [bind app]. now rewrite IH.
Qed.

Lemma yielded_app es1 es2 : yielded (es1 ++ es2) = yielded es1 ++ yielded es2.
Proof.
  induction es1 as [|[chunk|line|e line] es1 IH]; cbn; now rewrite ?IH.
Qed.

Section Stream.
Variable json_loads : bytes -> result json.
Variable json_dumps : json -> str.

Let stream := ndjson_stream json_loads json_dumps.
Let step := loop_body json_loads json_dumps.

(** The generator keeps no state from one line to the next. *)
Lemma stream_app l1 l2 : stream (l1 ++ l2) = stream l1 ++ stream l2.
Proof.
  unfold stream, ndjson_stream, ndjson_effects.
  now rewrite flat_map_app, yielded_app.
Qed.

Lemma stream_cons line lines :
  stream (line :: lines) = yielded (step line) ++ stream lines.
Proof.
  unfold stream, ndjson_stream, ndjson_effects. cbn [flat_map].
  apply yielded_app.
Qed.

Lemma stream_middle pre line post :
  stream (pre ++ line :: post)
  = stream pre ++ yielded (step line) ++ stream post.
Proof. now rewrite stream_app, stream_cons. Qed.

Lemma step_empty : step [] = [].
Proof. reflexivity. Qed.

Lemma step_raise line e :
  try_line json_loads json_dumps line = Raise e -> yielded (step line) = [].
Proof.
  intros H. unfold step, loop_body. destruct line; [reflexivity|].
  rewrite H. destruct e; reflexivity.
Qed.

Lemma step_ok line chunk :
  line <> [] ->
  try_line json_loads json_dumps line = Ok chunk ->
  yielded (step line) = [chunk].
Proof.
  intros Hl H. unfold step, loop_body. destruct line; [congruence|].
  now rewrite H.
Qed.

Lemma try_line_ok line r r' :
  json_loads line = Ok r ->
  line_transform r = Ok r' ->
  ascii_only (json_dumps r') ->
  try_line json_loads json_dumps line
  = Ok (map byte_of (json_dumps r' ++ [10%N])).
Proof.
  intros Hl Ht Ha. unfold try_line. rewrite Hl. cbn [bind]. rewrite Ht.
  cbn [bind]. apply encode_ascii. apply Forall_app. split; [exact Ha|].
  now repeat constructor.
Qed.
End Stream.

End StreamFacts.

(** ** Headers *)

Module HeaderFacts.

Lemma in_set (d : Header.t) (k v k' v' : string) :
  In (k, v) (Dict.set String.eqb d k' v') -> (k, v) = (k', v') \/ In (k, v) d.
Proof.
  induction d as [|[k0 v0] d IH]; cbn.
  - intros [H|[]]; auto.
  - destruct (String.eqb k0 k') eqn:E; cbn.
    + apply String.eqb_eq in E. subst k0. intros [H|H]; auto.
    + intros [H|H]; auto. destruct (IH H); auto.
Qed.

Lemma fold_keys (hs : Header.t) :
  forall (d : Header.t) (k v : string),
    In (k, v) (fold_left add_header hs d) ->
    In (k, v) d \/ (not_host (k, v) = true /\ In (k, v) hs).
Proof.
  induction hs as [|[k0 v0] hs IH]; intros d k v H; cbn in H; [auto|].
  apply IH in H. destruct H as [H|[H1 H2]]; [|right; split; [|right]; auto].
  unfold add_header in H. destruct (not_host (k0, v0)) eqn:E; [|auto].
  apply in_set in H. destruct H as [[= -> ->]|H]; [|auto].
  right. split; [exact E | left; reflexivity].
Qed.

Lemma set_fresh (d : Header.t) (k v : string) :
  ~ In k (map fst d) -> Dict.set String.eqb d k v = d ++ [(k, v)].
Proof.
  induction d as [|[k0 v0] d IH]; cbn; intros H; [reflexivity|].
  destruct (String.eqb k0 k) eqn:E.
  - apply String.eqb_eq in E. tauto.
  - f_equal. apply IH. tauto.
Qed.

Lemma fold_fresh (hs : Header.t) :
  forall d : Header.t,
    NoDup (map fst d ++ map fst hs) ->
    fold_left add_header hs d = d ++ filter not_host hs.
Proof.
  induction hs as [|[k v] hs IH]; intros d H; cbn [fold_left filter].
  - now rewrite app_nil_r.
  - cbn [map fst] in H. unfold add_header at 2. destruct (not_host (k, v)).
    + cbn [fst snd]. rewrite set_fresh.
      * rewrite IH.
        -- now rewrite <- app_assoc.
        -- rewrite map_app. cbn [map fst]. rewrite <- app_assoc. exact H.
      * apply NoDup_remove_2 in H. intros Hin. apply H.
        apply in_or_app. now left.
    + apply IH. apply NoDup_remove_1 in H. exact H.
Qed.





End HeaderFacts.

(** * The properties of the design document *)

(** C1.  A POST whose path is [api/generate] is not handled by a generate
    handler: [proxy_all] reaches the call [proxy_generate()], a name the
    module never binds, and raises [NameError] before any outbound call;
    no body is parsed, no [stream] field is set, nothing is forwarded. *)
Theorem generate_raises_name_error
    (OLLAMA_URL : string) (backend : outbound -> result backend_response)
    (json_loads : bytes -> result json) (json_dumps : json -> str)
    (hs : Header.t) (data : bytes) (cks ags : Header.t) :
  proxy_all OLLAMA_URL backend json_loads json_dumps "api/generate"
    {| method := "POST"; headers := hs; get_data := data;
       cookies := cks; args := ags |}
  = ([], Raise (NameError "proxy_generate")).
Proof. reflexivity. Qed.

Example generate_sample :
  proxy_all Sample.url Sample.redirecting JsonText.loads JsonText.dumps
    "api/generate" Sample.post_generate
  = ([], Raise (NameError "proxy_generate")).
Proof. reflexivity. Qed.

(** C2.  For every JSON object [r] whose [message.content] is a string made
    of pieces [p0 e1 p1 ... en pn] where each [e] is an opening think tag,
    whitespace only and a closing think tag (letter case ignored, newlines
    counted as whitespace) and no piece [p] holds such a span, the line
    transform returns [r] with [message.content] replaced by
    [p0 p1 ... pn]: every such span is removed and the rest is kept as it
    is. *)
Theorem blank_spans_removed (r : json) (p0 : str) (segs : list (str * str)) :
  has_content r (weave p0 segs) ->
  ~ has_blank_span p0 ->
  Forall (fun ep => blank_span (fst ep) /\ ~ has_blank_span (snd ep)) segs ->
  line_transform r = Ok (with_content r (rest_of p0 segs))
  /\ has_content (with_content r (rest_of p0 segs)) (rest_of p0 segs).
Proof.
  intros Hr H0 Hs. split.
  - rewrite (TransformFacts.line_transform_content Hr).
    now rewrite SubFacts.strip_weave.
  - exact (TransformFacts.has_content_with _ Hr).
Qed.

Lemma blank_spans_removed_witness :
  line_transform
    (Sample.chat (u "a" ++ Sample.span1 ++ u "b<think>x</think>" ++ Sample.span2 ++ u "c"))
  = Ok (Sample.chat (u "ab<think>x</think>c")).
Proof.
  refine (proj1 (@blank_spans_removed
            (Sample.chat (u "a" ++ Sample.span1 ++ u "b<think>x</think>" ++ Sample.span2 ++ u "c"))
            (u "a") [(Sample.span1, u "b<think>x</think>"); (Sample.span2, u "c")] _ _ _)).
  - eexists _, _. repeat split; reflexivity.
  - apply (proj1 (SubFacts.strip_fixed_iff _)). vm_compute. reflexivity.
  - repeat constructor.
    + exists (u "<THINK>"), [32; 10]%N, (u "</think>").
      split; [reflexivity|]. repeat constructor.
    + apply (proj1 (SubFacts.strip_fixed_iff _)). vm_compute. reflexivity.
    + exists (u "<think>"), [], (u "</ThinK>").
      split; [reflexivity|]. repeat constructor.
    + apply (proj1 (SubFacts.strip_fixed_iff _)). vm_compute. reflexivity.
Defined.

(** C3.  For every JSON object [r] whose [message.content] is a string in
    which no think-tag pair has only whitespace between its two tags, the
    line transform returns [r] itself. *)
Theorem nonblank_spans_untouched (r : json) (s : str) :
  has_content r s ->
  ~ has_blank_span s ->
  line_transform r = Ok r.
Proof.
  intros Hr Hs. rewrite (TransformFacts.line_transform_content Hr).
  rewrite SubFacts.strip_no_span by exact Hs.
  now rewrite (TransformFacts.with_content_same Hr).
Qed.

Lemma nonblank_spans_untouched_witness :
  line_transform (Sample.chat Sample.reasoning) = Ok (Sample.chat Sample.reasoning).
Proof.
  apply (@nonblank_spans_untouched (Sample.chat Sample.reasoning) Sample.reasoning).
  - eexists _, _. repeat split; reflexivity.
  - apply (proj1 (SubFacts.strip_fixed_iff _)). vm_compute. reflexivity.
Defined.

(** C4, as the code has it.  The substitution is one pass from left to
    right.  When the transform returns [r'] for [r], it returns [r'] for
    [r'] exactly when no blank span is left in [message.content] of [r']
    (always so when [r'] has no such string). *)
Theorem transform_twice (r r' : json) :
  line_transform r = Ok r' ->
  (line_transform r' = Ok r'
   <-> forall s, has_content r' s -> ~ has_blank_span s).
Proof.
  intros H. destruct (TransformFacts.line_transform_inv _ H)
    as [(s & Hs & ->)|[-> Hno]].
  - pose proof (TransformFacts.has_content_with (sub_think s) Hs) as Hr'.
    rewrite (TransformFacts.line_transform_content Hr').
    rewrite (TransformFacts.with_content_twice _ _ Hs).
    split.
    + intros [= E] s' Hs'.
      rewrite (TransformFacts.has_content_fun Hs' Hr').
      apply SubFacts.strip_fixed_iff.
      pose proof (TransformFacts.has_content_with (sub_think (sub_think s)) Hs) as H2.
      rewrite E in H2. exact (TransformFacts.has_content_fun H2 Hr').
    + intros Hclean. f_equal.
      rewrite (proj2 (SubFacts.strip_fixed_iff _) (Hclean _ Hr')).
      reflexivity.
  - split; [intros _ s Hs; destruct (Hno s Hs) | intros _; exact H].
Qed.

Lemma transform_twice_witness :
  line_transform (Sample.chat (u "Hello")) = Ok (Sample.chat (u "Hello"))
  <-> forall s, has_content (Sample.chat (u "Hello")) s -> ~ has_blank_span s.
Proof.
  apply (@transform_twice (Sample.chat (u "<think></think>Hello")) (Sample.chat (u "Hello"))).
  vm_compute. reflexivity.
Defined.

(** C4, as stated, fails: on the content [<thi<think></think>nk></think>]
    the first pass leaves [<think></think>], which the second removes. *)
Lemma transform_not_idempotent :
  line_transform (Sample.chat Sample.spliced)
  = Ok (Sample.chat (u "<think></think>"))
  /\ line_transform (Sample.chat (u "<think></think>")) = Ok (Sample.chat [])
  /\ (r' <- line_transform (Sample.chat Sample.spliced) ;; line_transform r')
     <> line_transform (Sample.chat Sample.spliced).
Proof.
  split; [|split].
  - vm_compute. reflexivity.
  - vm_compute. reflexivity.
  - vm_compute. discriminate.
Qed.

(** C5, as the code has it.  A parsed record that is an object without
    [message], or whose [message] is an object without [content], is
    returned unchanged by the line transform, and the stream yields its
    encoding followed by a newline: it is neither reported nor dropped. *)
Theorem missing_field_forwarded
    (json_loads : bytes -> result json) (json_dumps : json -> str)
    (r : json) (line : bytes) (pre post : list bytes) :
  missing_field r ->
  line <> [] ->
  json_loads line = Ok r ->
  ascii_only (json_dumps r) ->
  line_transform r = Ok r
  /\ ndjson_stream json_loads json_dumps (pre ++ line :: post)
     = ndjson_stream json_loads json_dumps pre
       ++ map byte_of (json_dumps r ++ [10%N])
       :: ndjson_stream json_loads json_dumps post.
Proof.
  intros Hr Hl Hd Ha.
  pose proof (TransformFacts.line_transform_missing Hr) as Ht.
  split; [exact Ht|].
  rewrite StreamFacts.stream_middle.
  rewrite (StreamFacts.step_ok _ _ Hl
             (StreamFacts.try_line_ok _ _ _ Hd Ht Ha)).
  reflexivity.
Qed.

Lemma missing_field_forwarded_witness :
  line_transform Sample.done_record = Ok Sample.done_record
  /\ ndjson_stream JsonText.loads JsonText.dumps
       ([Sample.hello_line] ++ Sample.done_line :: [Sample.hello_line])
     = ndjson_stream JsonText.loads JsonText.dumps [Sample.hello_line]
       ++ map byte_of (JsonText.dumps Sample.done_record ++ [10%N])
       :: ndjson_stream JsonText.loads JsonText.dumps [Sample.hello_line].
Proof.
  apply (@missing_field_forwarded JsonText.loads JsonText.dumps
           Sample.done_record Sample.done_line
           [Sample.hello_line] [Sample.hello_line]).
  - exists [(u "done", JBool true)]. split; [reflexivity | left; reflexivity].
  - discriminate.
  - vm_compute. reflexivity.
  - vm_compute. repeat constructor.
Defined.

(** C5, as stated, fails: in [{"message": {"content": null}}] the path
    [message.content] is no string, the substitution raises [TypeError] on
    it, the handler for other errors prints, and nothing is yielded. *)
Lemma null_content_dropped :
  (forall s, ~ has_content Sample.null_content s)
  /\ JsonText.loads Sample.null_content_line = Ok Sample.null_content
  /\ line_transform Sample.null_content <> Ok Sample.null_content
  /\ ndjson_effects JsonText.loads JsonText.dumps [Sample.null_content_line]
     = [PrintGenericError TypeError Sample.null_content_line]
  /\ ndjson_stream JsonText.loads JsonText.dumps [Sample.null_content_line] = [].
Proof.
  split; [|split; [|split; [|split]]].
  - intros s (d & m & E & Hm & Hc). injection E as <-.
    vm_compute in Hm. injection Hm as <-. vm_compute in Hc. discriminate.
  - vm_compute. reflexivity.
  - vm_compute. discriminate.
  - vm_compute. reflexivity.
  - vm_compute. reflexivity.
Qed.

(** C6.  A non-empty line on which [json.loads] raises yields nothing, and
    the lines before and after it are processed as if it were not there:
    it is not forwarded and it does not end the stream. *)
Theorem malformed_line_skipped
    (json_loads : bytes -> result json) (json_dumps : json -> str)
    (pre post : list bytes) (line : bytes) (e : exn) :
  line <> [] ->
  json_loads line = Raise e ->
  ndjson_stream json_loads json_dumps (pre ++ line :: post)
  = ndjson_stream json_loads json_dumps pre
    ++ ndjson_stream json_loads json_dumps post.
Proof.
  intros _ He. rewrite StreamFacts.stream_middle.
  rewrite (@StreamFacts.step_raise json_loads json_dumps line e);
    [reflexivity|].
  unfold try_line. now rewrite He.
Qed.

Lemma malformed_line_skipped_witness :
  ndjson_stream JsonText.loads JsonText.dumps
    ([Sample.hello_line] ++ Sample.broken_line :: [Sample.done_line])
  = ndjson_stream JsonText.loads JsonText.dumps [Sample.hello_line]
    ++ ndjson_stream JsonText.loads JsonText.dumps [Sample.done_line].
Proof.
  apply (@malformed_line_skipped JsonText.loads JsonText.dumps
           [Sample.hello_line] [Sample.done_line] Sample.broken_line
           JSONDecodeError).
  - discriminate.
  - vm_compute. reflexivity.
Defined.

(** C7.  An empty line yields nothing and raises nothing.  For two lines
    that decode and transform, with an empty line between them, the
    stream yields exactly the two encoded records, each ended by one
    newline. *)
Theorem empty_line_skipped
    (json_loads : bytes -> result json) (json_dumps : json -> str)
    (l1 l2 : bytes) (r1 r2 t1 t2 : json) :
  l1 <> [] -> l2 <> [] ->
  json_loads l1 = Ok r1 -> json_loads l2 = Ok r2 ->
  line_transform r1 = Ok t1 -> line_transform r2 = Ok t2 ->
  ascii_only (json_dumps t1) -> ascii_only (json_dumps t2) ->
  (forall pre post,
      ndjson_stream json_loads json_dumps (pre ++ [] :: post)
      = ndjson_stream json_loads json_dumps pre
        ++ ndjson_stream json_loads json_dumps post)
  /\ loop_body json_loads json_dumps [] = []
  /\ ndjson_stream json_loads json_dumps [l1; []; l2]
     = [map byte_of (json_dumps t1 ++ [10%N]);
        map byte_of (json_dumps t2 ++ [10%N])].
Proof.
  intros N1 N2 D1 D2 T1 T2 A1 A2. split; [|split].
  - intros pre post. now rewrite StreamFacts.stream_middle.
  - reflexivity.
  - rewrite !StreamFacts.stream_cons.
    rewrite (StreamFacts.step_ok _ _ N1 (StreamFacts.try_line_ok _ _ _ D1 T1 A1)).
    rewrite (StreamFacts.step_ok _ _ N2 (StreamFacts.try_line_ok _ _ _ D2 T2 A2)).
    reflexivity.
Qed.

Lemma empty_line_skipped_witness :
  ndjson_stream JsonText.loads JsonText.dumps
    [Sample.hello_line; []; Sample.done_line]
  = [bytes_of "{'message': {'content': 'Hello'}}" ++ [x0a];
     bytes_of "{'done': true}" ++ [x0a]].
Proof.
  refine (proj2 (proj2 (@empty_line_skipped JsonText.loads JsonText.dumps
            Sample.hello_line Sample.done_line
            (JDict [(message, JDict [(content, JStr (u "<think>" ++ [10; 10]%N ++ u "</think>Hello"))])])
            Sample.done_record
            (JDict [(message, JDict [(content, JStr (u "Hello"))])])
            Sample.done_record _ _ _ _ _ _ _ _))).
  - discriminate.
  - discriminate.
  - vm_compute. reflexivity.
  - vm_compute. reflexivity.
  - vm_compute. reflexivity.
  - vm_compute. reflexivity.
  - vm_compute. repeat constructor.
  - vm_compute. repeat constructor.
Defined.

(** The arguments of the outbound call and the response built from the
    answer.  For every request that [proxy_all] forwards itself (neither a
    POST to [api/generate] nor a POST to [api/chat]), exactly one outbound
    call is made, to [OLLAMA_URL + "/" + path] ([path] is the inbound path
    after its leading slash), with the method, body, cookies and query
    arguments of the request and with redirects not followed.  When the
    backend answers, its status code and its body are returned as they are, whatever the status (a 3xx included), and a
    [Location] header stays in the response. *)
Theorem generic_forward
    (OLLAMA_URL : string) (backend : outbound -> result backend_response)
    (json_loads : bytes -> result json) (json_dumps : json -> str)
    (path : string) (req : request) :
  ~ (path = "api/generate"%string /\ method req = "POST"%string) ->
  ~ (path = "api/chat"%string /\ method req = "POST"%string) ->
  let call :=
    {| o_method := method req;
       o_url := (OLLAMA_URL ++ "/" ++ path)%string;
       o_headers := forwarded_headers (headers req);
       o_data := get_data req;
       o_cookies := cookies req;
       o_allow_redirects := false;
       o_params := args req;
       o_stream := false |} in
  calls (proxy_all OLLAMA_URL backend json_loads json_dumps path req) = [call]
  /\ forall resp,
       backend call = Ok resp ->
       exists r,
         outcome (proxy_all OLLAMA_URL backend json_loads json_dumps path req) = Ok r
         /\ status r = status_code resp
         /\ r_body r = Buffered (resp_content resp)
         /\ r_headers r = response_headers (raw_headers resp)
         /\ forall v, In ("Location"%string, v) (raw_headers resp) ->
                      In ("Location"%string, v) (r_headers r).
Proof.
  intros Hg Hc call. unfold proxy_all.
  destruct (String.eqb path "api/generate" && String.eqb (method req) "POST") eqn:Eg.
  { apply andb_true_iff in Eg. destruct Eg as [E1 E2].
    apply String.eqb_eq in E1, E2. tauto. }
  destruct (String.eqb path "api/chat" && String.eqb (method req) "POST") eqn:Ec.
  { apply andb_true_iff in Ec. destruct Ec as [E1 E2].
    apply String.eqb_eq in E1, E2. tauto. }
  fold call. unfold and_then, requests_request, calls, outcome.
  split.
  - destruct (backend call); reflexivity.
  - intros resp ->. cbn. eexists. split; [reflexivity|].
    cbn. repeat split.
    intros v Hv. unfold response_headers. apply filter_In. split; [exact Hv|].
    reflexivity.
Qed.

Lemma generic_forward_witness :
  let call :=
    {| o_method := "GET";
       o_url := "http://localhost:11434/api/tags";
       o_headers := [("Accept", "*/*"); ("Content-Type", "application/json")]%string;
       o_data := [];
       o_cookies := [];
       o_allow_redirects := false;
       o_params := [("verbose", "1")]%string;
       o_stream := false |} in
  calls (proxy_all Sample.url Sample.redirecting JsonText.loads JsonText.dumps
           "api/tags" Sample.get_tags) = [call]
  /\ forall resp,
       Sample.redirecting call = Ok resp ->
       exists r,
         outcome (proxy_all Sample.url Sample.redirecting JsonText.loads
                    JsonText.dumps "api/tags" Sample.get_tags) = Ok r
         /\ status r = status_code resp
         /\ r_body r = Buffered (resp_content resp)
         /\ r_headers r = response_headers (raw_headers resp)
         /\ forall v, In ("Location"%string, v) (raw_headers resp) ->
                      In ("Location"%string, v) (r_headers r).
Proof.
  apply (@generic_forward Sample.url Sample.redirecting
           JsonText.loads JsonText.dumps "api/tags" Sample.get_tags).
  - intros [E _]. discriminate E.
  - intros [E _]. discriminate E.
Defined.

Lemma mem_fresh (d : Header.t) (k : string) :
  ~ In k (map fst d) -> Dict.mem String.eqb d k = false.
Proof.
  unfold Dict.mem. induction d as [|[k0 v0] d IH]; cbn; [reflexivity|].
  intros H. destruct (String.eqb k0 k) eqn:E.
  - apply String.eqb_eq in E. tauto.
  - apply IH. tauto.
Qed.

(** What [requests] sends of [params]: all of it when no key is repeated. *)
Lemma multidict_items_fresh (pairs : Header.t) :
  forall d : Header.t,
    NoDup (map fst d ++ map fst pairs) ->
    fold_left
      (fun d kv => if Dict.mem String.eqb d (fst kv) then d else d ++ [kv])
      pairs d
    = d ++ pairs.
Proof.
  induction pairs as [|[k v] pairs IH]; intros d H; cbn [fold_left].
  - now rewrite app_nil_r.
  - cbn [map fst] in H.
    assert (Hk : Dict.mem String.eqb d k = false).
    { apply mem_fresh. apply NoDup_remove_2 in H. intros Hin. apply H.
      apply in_or_app. now left. }
    cbn [fst]. rewrite Hk, IH.
    + now rewrite <- app_assoc.
    + rewrite map_app. cbn [map fst]. now rewrite <- app_assoc.
Qed.

Lemma query_sent_distinct_keys (call : outbound) :
  NoDup (map fst (o_params call)) -> query_sent call = o_params call.
Proof.
  intros H. unfold query_sent, multidict_items.
  now rewrite multidict_items_fresh.
Qed.

(** C9.  The query is not preserved when a key is repeated: for
    [GET /api/tags?a=1&a=2] the one outbound call goes to
    [OLLAMA_URL + "/api/tags"] with [request.args] as [params], of which
    [requests] sends one pair per key, so the backend receives [a=1]
    only. *)
Theorem repeated_query_key_dropped
    (OLLAMA_URL : string) (backend : outbound -> result backend_response)
    (json_loads : bytes -> result json) (json_dumps : json -> str) :
  exists call,
    calls (proxy_all OLLAMA_URL backend json_loads json_dumps "api/tags"
             get_tags_repeated_key) = [call]
    /\ o_url call = (OLLAMA_URL ++ "/api/tags")%string
    /\ o_params call = args get_tags_repeated_key
    /\ query_sent call = [("a", "1")]%string
    /\ query_sent call <> args get_tags_repeated_key.
Proof.
  eexists. split.
  - unfold proxy_all, and_then, requests_request, calls. cbn [String.eqb andb].
    match goal with |- context [backend ?c] => destruct (backend c) end;
      reflexivity.
  - cbn. repeat split. discriminate.
Qed.

(** C10.  For every POST to [/api/chat] that the backend answers,
    [proxy_chat] returns a response with no status argument (200), the
    mimetype [application/x-ndjson; charset=utf-8] and no header argument;
    of the backend response only the lines of the body are used, neither
    its status code nor its headers. *)
Theorem chat_response_fixed
    (OLLAMA_URL : string) (backend : outbound -> result backend_response)
    (json_loads : bytes -> result json) (json_dumps : json -> str)
    (req : request) (resp : backend_response) :
  backend {| o_method := "POST";
             o_url := (OLLAMA_URL ++ "/api/chat")%string;
             o_headers := forwarded_headers (headers req);
             o_data := get_data req;
             o_cookies := cookies req;
             o_allow_redirects := false;
             o_params := args req;
             o_stream := true |} = Ok resp ->
  exists r,
    outcome (proxy_chat OLLAMA_URL backend json_loads json_dumps req) = Ok r
    /\ status r = 200%Z
    /\ r_mimetype r = Some "application/x-ndjson; charset=utf-8"%string
    /\ r_headers r = []
    /\ r_body r = Streamed (ndjson_stream json_loads json_dumps (iter_lines resp)).
Proof.
  intros H. unfold proxy_chat, and_then, requests_request, outcome.
  rewrite H. cbn. eexists. split; [reflexivity|]. cbn. repeat split.
Qed.

Lemma chat_response_fixed_witness :
  exists r,
    outcome (proxy_chat Sample.url Sample.failing JsonText.loads JsonText.dumps
               Sample.post_chat) = Ok r
    /\ status r = 200%Z
    /\ r_mimetype r = Some "application/x-ndjson; charset=utf-8"%string
    /\ r_headers r = []
    /\ r_body r = Streamed (ndjson_stream JsonText.loads JsonText.dumps
                              [Sample.hello_line; Sample.done_line]).
Proof.
  apply (@chat_response_fixed Sample.url Sample.failing
           JsonText.loads JsonText.dumps Sample.post_chat
           {| status_code := 500%Z; raw_headers := Sample.backend_headers;
              resp_content := [];
              iter_lines := [Sample.hello_line; Sample.done_line] |}).
  reflexivity.
Defined.

(** The second route reaches the same view for a POST to [api/chat]. *)
Lemma proxy_all_chat
    (OLLAMA_URL : string) (backend : outbound -> result backend_response)
    (json_loads : bytes -> result json) (json_dumps : json -> str)
    (hs : Header.t) (data : bytes) (cks ags : Header.t) :
  let req := {| method := "POST"; headers := hs; get_data := data;
                cookies := cks; args := ags |} in
  proxy_all OLLAMA_URL backend json_loads json_dumps "api/chat" req
  = proxy_chat OLLAMA_URL backend json_loads json_dumps req.
Proof. reflexivity. Qed.

(** * Further properties of the code *)

(** ** [remove_empty_think_tags] *)

Module MoreSubFacts.
Import Re ThinkFacts SubFacts.

Lemma subseq_refl {A : Type} (s : list A) : subseq s s.
Proof. induction s; constructor; assumption. Qed.

Lemma subseq_skip {A : Type} (e t s : list A) : subseq t s -> subseq t (e ++ s).
Proof. intros H. induction e; [exact H | now constructor]. Qed.

Lemma close_tag_slash c : close_tag c -> In 47%N c.
Proof.
  intros H. inversion H as [|p0 x0 l0 c0 _ H0]; subst.
  inversion H0 as [|p1 x1 l1 c1 H1 _]; subst.
  change (N_of_ascii "/") with 47%N in H1. apply N.eqb_eq in H1. subst x1.
  right. left. reflexivity.
Qed.

Lemma blank_span_slash e : blank_span e -> In 47%N e.
Proof.
  intros (o & w & c & -> & _ & _ & Hc).
  apply in_or_app. right. apply in_or_app. right. now apply close_tag_slash.
Qed.

End MoreSubFacts.

(** X1.  The substitution only deletes: its result is the text with some
    characters left out and the others in their order, so it is never
    longer, and it has the length of the text only when it is the text. *)
Theorem sub_think_only_deletes (s : str) :
  subseq (sub_think s) s
  /\ List.length (sub_think s) <= List.length s
  /\ (List.length (sub_think s) = List.length s -> sub_think s = s).
Proof.
  split; [|split].
  - remember (List.length s) as n eqn:Hn. revert s Hn.
    induction n as [n IH] using lt_wf_ind. intros s ->.
    destruct s as [|c s]; [constructor|].
    rewrite SubFacts.strip_cons.
    destruct (Re.match_here think_pattern (c :: s)) as [r|] eqn:Hr.
    + pose proof (ThinkFacts.match_shortens _ Hr) as Hlt.
      apply ThinkFacts.match_sound in Hr. destruct Hr as (e & E & _).
      rewrite E. apply MoreSubFacts.subseq_skip. exact (IH _ Hlt r eq_refl).
    + constructor. exact (IH _ (Nat.lt_succ_diag_r _) s eq_refl).
  - apply SubFacts.strip_length.
  - intros H. apply SubFacts.strip_fixed_iff. intros Hs.
    apply SubFacts.strip_shrinks in Hs. lia.
Qed.

(** X2.  A text shorter than the shortest blank span (15 characters), or
    one without the character [/], is returned as it is. *)
Theorem sub_think_plain_text (s : str) :
  List.length s < 15 \/ ~ In 47%N s ->
  sub_think s = s.
Proof.
  intros H. apply SubFacts.strip_no_span.
  intros (a & e & t & -> & He). destruct H as [H|H].
  - apply ThinkFacts.blank_span_length in He. rewrite !length_app in H. lia.
  - apply H. apply in_or_app. right. apply in_or_app. left.
    now apply MoreSubFacts.blank_span_slash.
Qed.

Lemma sub_think_plain_text_witness :
  sub_think (u "<think> <think> a > b") = u "<think> <think> a > b".
Proof.
  apply sub_think_plain_text. right. intros H. vm_compute in H.
  repeat (destruct H as [H|H]; [discriminate H|]). exact H.
Defined.

(** ** The line transform *)

Module MoreTransformFacts.
Import DictFacts.

Lemma str_eqb_eq a : forall b, str_eqb a b = true -> a = b.
Proof.
  induction a as [|x a IH]; intros [|y b] H; try discriminate; [reflexivity|].
  cbn in H. apply andb_true_iff in H. destruct H as [H1 H2].
  apply N.eqb_eq in H1. subst. f_equal. now apply IH.
Qed.

Lemma set_keys (d : list (str * json)) k v :
  Dict.get str_eqb d k <> None ->
  map fst (Dict.set str_eqb d k v) = map fst d.
Proof.
  induction d as [|[k0 v0] d IH]; cbn; [congruence|].
  destruct (str_eqb k0 k); [reflexivity|]. intros H. cbn. f_equal. auto.
Qed.

Lemma get_set_other (d : list (str * json)) k v k' :
  str_eqb k' k = false ->
  Dict.get str_eqb (Dict.set str_eqb d k v) k' = Dict.get str_eqb d k'.
Proof.
  intros Hk. assert (Hne : k <> k').
  { intros <-. now rewrite str_eqb_refl in Hk. }
  induction d as [|[k0 v0] d IH]; cbn.
  - destruct (str_eqb k k') eqn:E; [|reflexivity].
    apply str_eqb_eq in E. contradiction.
  - destruct (str_eqb k0 k) eqn:E0; cbn.
    + apply str_eqb_eq in E0. subst k0.
      destruct (str_eqb k k') eqn:E; [|reflexivity].
      apply str_eqb_eq in E. contradiction.
    + destruct (str_eqb k0 k'); [reflexivity | exact IH].
Qed.

End MoreTransformFacts.

(** X3.  The line transform raises nothing but [TypeError]: every lookup
    comes after a membership test on the same key, so no [KeyError]. *)
Theorem line_transform_raises_type_error_only (r : json) :
  (exists r', line_transform r = Ok r') \/ line_transform r = Raise TypeError.
Proof.
  unfold line_transform.
  destruct r as [| | | |s0|l|d]; cbn [contains bind]; auto.
  - destruct (str_contains s0 message); cbn; eauto.
  - destruct (existsb _ l); cbn; eauto.
  - unfold Dict.mem, getitem.
    destruct (Dict.get str_eqb d message) as [m|]; cbn [bind]; [|eauto].
    destruct m as [| | | |s0|l|dm]; cbn [contains bind]; auto.
    + destruct (str_contains s0 content); cbn; eauto.
    + destruct (existsb _ l); cbn; eauto.
    + unfold Dict.mem.
      destruct (Dict.get str_eqb dm content) as [c|]; cbn [bind]; [|eauto].
      destruct c; cbn; eauto.
Qed.

(** X4.  When the line transform returns, the record is the same or it
    differs in [message.content] only: the object and its [message] keep
    their keys in their order, every other entry of both keeps its value,
    and the content is the old string after the substitution. *)
Theorem line_transform_touches_content_only (r r' : json) :
  line_transform r = Ok r' ->
  r' = r
  \/ exists d d' m m' s,
       r = JDict d /\ r' = JDict d'
       /\ map fst d' = map fst d
       /\ (forall k, str_eqb k message = false ->
                     Dict.get str_eqb d' k = Dict.get str_eqb d k)
       /\ Dict.get str_eqb d message = Some (JDict m)
       /\ Dict.get str_eqb d' message = Some (JDict m')
       /\ map fst m' = map fst m
       /\ (forall k, str_eqb k content = false ->
                     Dict.get str_eqb m' k = Dict.get str_eqb m k)
       /\ Dict.get str_eqb m content = Some (JStr s)
       /\ Dict.get str_eqb m' content = Some (JStr (sub_think s)).
Proof.
  intros H. destruct (TransformFacts.line_transform_inv _ H)
    as [(s & (d & m & -> & Hm & Hc) & ->)|[-> _]]; [right | now left].
  unfold with_content. rewrite Hm.
  exists d, (Dict.set str_eqb d message
               (JDict (Dict.set str_eqb m content (JStr (sub_think s))))),
    m, (Dict.set str_eqb m content (JStr (sub_think s))), s.
  repeat split; try assumption.
  - apply MoreTransformFacts.set_keys. congruence.
  - intros k Hk. now apply MoreTransformFacts.get_set_other.
  - apply DictFacts.get_set, DictFacts.str_eqb_refl.
  - apply MoreTransformFacts.set_keys. congruence.
  - intros k Hk. now apply MoreTransformFacts.get_set_other.
  - apply DictFacts.get_set, DictFacts.str_eqb_refl.
Qed.

Lemma line_transform_touches_content_only_witness :
  Sample.chat (u "Hi") = Sample.chat (u "<think></think>Hi")
  \/ exists d d' m m' s,
       Sample.chat (u "<think></think>Hi") = JDict d
       /\ Sample.chat (u "Hi") = JDict d'
       /\ map fst d' = map fst d
       /\ (forall k, str_eqb k message = false ->
                     Dict.get str_eqb d' k = Dict.get str_eqb d k)
       /\ Dict.get str_eqb d message = Some (JDict m)
       /\ Dict.get str_eqb d' message = Some (JDict m')
       /\ map fst m' = map fst m
       /\ (forall k, str_eqb k content = false ->
                     Dict.get str_eqb m' k = Dict.get str_eqb m k)
       /\ Dict.get str_eqb m content = Some (JStr s)
       /\ Dict.get str_eqb m' content = Some (JStr (sub_think s)).
Proof.
  apply (@line_transform_touches_content_only
           (Sample.chat (u "<think></think>Hi")) (Sample.chat (u "Hi"))).
  vm_compute. reflexivity.
Defined.

(** ** The stream *)

Module MoreStreamFacts.

Lemma encode_newline s :
  forall chunk,
    encode_utf8 (s ++ [10%N]) = Ok chunk -> exists body, chunk = body ++ [x0a].
Proof.
  induction s as [|c s IH]; intros chunk H.
  - injection H as <-. now exists [].
  - cbn [app encode_utf8] in H.
    destruct (utf8_char c) as [bc|]; [|discriminate]. cbn [bind] in H.
    destruct (encode_utf8 (s ++ [10%N])) as [bs|]; [|discriminate].
    injection H as <-. destruct (IH bs eq_refl) as [body ->].
    exists (bc ++ body). now rewrite app_assoc.
Qed.

Lemma yielded_length es : List.length (yielded es) <= List.length es.
Proof.
  induction es as [|[chunk|line|e line] es IH]; cbn; lia.
Qed.

Lemma yielded_in es chunk : In chunk (yielded es) -> In (Yield chunk) es.
Proof.
  induction es as [|[c|line|e line] es IH]; cbn; [tauto| | |].
  - intros [->|H]; auto.
  - auto.
  - auto.
Qed.

Section Stream.
Variable json_loads : bytes -> result json.
Variable json_dumps : json -> str.

Lemma loop_body_length line :
  List.length (loop_body json_loads json_dumps line)
  = if nonempty line then 1 else 0.
Proof.
  unfold loop_body. destruct line; [reflexivity|]. cbn [nonempty].
  destruct (try_line _ _ _) as [chunk|[]]; reflexivity.
Qed.

Lemma loop_body_yield line chunk :
  In (Yield chunk) (loop_body json_loads json_dumps line) ->
  try_line json_loads json_dumps line = Ok chunk.
Proof.
  unfold loop_body. destruct line; [intros []|].
  destruct (try_line _ _ _) as [c|[]]; cbn; intros [H|[]];
    try discriminate H.
  now injection H as ->.
Qed.
End Stream.

End MoreStreamFacts.

(** X5.  A line whose JSON value is [null], a boolean or a number is not
    forwarded: the membership test raises [TypeError], the handler for
    other errors prints, and nothing is yielded for the line. *)
Theorem scalar_record_dropped
    (json_loads : bytes -> result json) (json_dumps : json -> str)
    (line : bytes) (r : json) :
  line <> [] ->
  json_loads line = Ok r ->
  scalar r ->
  ndjson_effects json_loads json_dumps [line] = [PrintGenericError TypeError line]
  /\ ndjson_stream json_loads json_dumps [line] = [].
Proof.
  intros Hl Hr Hs.
  assert (E : loop_body json_loads json_dumps line
              = [PrintGenericError TypeError line]).
  { unfold loop_body, try_line. destruct line; [congruence|]. rewrite Hr.
    destruct r; try destruct Hs; reflexivity. }
  unfold ndjson_stream, ndjson_effects. cbn [flat_map]. rewrite E.
  split; reflexivity.
Qed.

Lemma scalar_record_dropped_witness :
  ndjson_effects JsonText.loads JsonText.dumps [bytes_of "42"]
  = [PrintGenericError TypeError (bytes_of "42")]
  /\ ndjson_stream JsonText.loads JsonText.dumps [bytes_of "42"] = [].
Proof.
  apply (@scalar_record_dropped JsonText.loads JsonText.dumps
           (bytes_of "42") (JInt 42)).
  - discriminate.
  - vm_compute. reflexivity.
  - exact I.
Defined.

(** X6.  Every non-empty line gives exactly one effect, a yielded chunk or
    one printed message, and an empty line gives none: the effects are as
    many as the non-empty lines, the chunks at most as many, and leaving
    the empty lines out changes nothing. *)
Theorem one_effect_per_line
    (json_loads : bytes -> result json) (json_dumps : json -> str)
    (lines : list bytes) :
  List.length (ndjson_effects json_loads json_dumps lines)
  = List.length (filter nonempty lines)
  /\ List.length (ndjson_stream json_loads json_dumps lines)
     <= List.length (filter nonempty lines)
  /\ ndjson_effects json_loads json_dumps (filter nonempty lines)
     = ndjson_effects json_loads json_dumps lines.
Proof.
  assert (L : List.length (ndjson_effects json_loads json_dumps lines)
              = List.length (filter nonempty lines)).
  { unfold ndjson_effects.
    induction lines as [|line lines IH]; [reflexivity|].
    cbn [flat_map filter]. rewrite length_app, IH.
    rewrite MoreStreamFacts.loop_body_length.
    destruct (nonempty line); reflexivity. }
  split; [exact L|split].
  - unfold ndjson_stream. rewrite <- L. apply MoreStreamFacts.yielded_length.
  - clear L. unfold ndjson_effects.
    induction lines as [|line lines IH]; [reflexivity|].
    cbn [flat_map filter]. destruct line as [|c line]; cbn [nonempty].
    + exact IH.
    + cbn [flat_map]. now rewrite IH.
Qed.

(** X7.  Every chunk the generator yields ends with one newline byte,
    whatever [json.dumps] returns. *)
Theorem chunks_end_with_newline
    (json_loads : bytes -> result json) (json_dumps : json -> str)
    (lines : list bytes) :
  Forall (fun chunk => exists body, chunk = body ++ [x0a])
    (ndjson_stream json_loads json_dumps lines).
Proof.
  apply Forall_forall. intros chunk H.
  unfold ndjson_stream in H. apply MoreStreamFacts.yielded_in in H.
  unfold ndjson_effects in H. apply in_flat_map in H.
  destruct H as (line & _ & H).
  apply MoreStreamFacts.loop_body_yield in H. unfold try_line in H.
  destruct (json_loads line) as [r|]; [|discriminate]. cbn [bind] in H.
  destruct (line_transform r) as [r'|]; [|discriminate]. cbn [bind] in H.
  exact (MoreStreamFacts.encode_newline _ H).
Qed.

(** ** Header comprehensions *)

Module MoreHeaderFacts.

Lemma all_below_spec n P :
  all_below n P = true -> forall k, (k < N.of_nat n)%N -> P k = true.
Proof.
  induction n as [|n IH]; intros H k Hk; [lia|].
  cbn in H. apply andb_true_iff in H. destruct H as [H1 H2].
  destruct (N.eq_dec k (N.of_nat n)) as [->|Hne]; [exact H1|].
  apply IH; [exact H2 | lia].
Qed.

Lemma lower_char_same_letter a b :
  plain_char b = true ->
  Ascii.eqb (Header.lower_char a) b = same_letter a b.
Proof.
  intros Hb.
  assert (T : all_below 256 (fun x =>
                all_below 256 (fun y =>
                  let a := ascii_of_N x in
                  let b := ascii_of_N y in
                  negb (plain_char b)
                  || Bool.eqb (Ascii.eqb (Header.lower_char a) b)
                       (same_letter a b))) = true)
    by (vm_compute; reflexivity).
  pose proof (@all_below_spec 256 _ T (N_of_ascii a) (N_ascii_bounded a)) as Ta.
  cbv beta in Ta.
  pose proof (@all_below_spec 256 _ Ta (N_of_ascii b) (N_ascii_bounded b)) as Tb.
  cbv beta zeta in Tb. rewrite !ascii_N_embedding, Hb in Tb. cbn [negb orb] in Tb.
  now apply Bool.eqb_prop in Tb.
Qed.

Lemma lower_iequal k :
  forall n, plain_name n = true ->
            (Header.lower k = n <-> iequal k n = true).
Proof.
  induction k as [|a k IH]; intros [|b n] Hn; cbn; try (split; congruence).
  cbn in Hn. apply andb_true_iff in Hn. destruct Hn as [Hb Hn].
  rewrite andb_true_iff, <- (IH n Hn), <- (@lower_char_same_letter a b Hb).
  rewrite Ascii.eqb_eq. split; [intros [= -> ->]; auto | intros [-> ->]; auto].
Qed.

Section StringKeys.
Context {V : Type}.




Lemma set_keys_nodup (d : list (string * V)) k v :
  NoDup (map fst d) -> NoDup (map fst (Dict.set String.eqb d k v)).
Proof.
  intros Hd. destruct (in_dec string_dec k (map fst d)) as [Hin|Hin].
  - assert (E : map fst (Dict.set String.eqb d k v) = map fst d).
    { clear Hd. induction d as [|[k0 v0] d IH]; [destruct Hin|].
      cbn. destruct (String.eqb k0 k) eqn:E0; [reflexivity|].
      cbn. f_equal. apply IH. destruct Hin as [H|H]; [|exact H].
      cbn in H. subst k0. rewrite String.eqb_refl in E0. discriminate. }
    now rewrite E.
  - assert (E : Dict.set String.eqb d k v = d ++ [(k, v)]).
    { clear Hd. induction d as [|[k0 v0] d IH]; [reflexivity|].
      cbn. destruct (String.eqb k0 k) eqn:E0.
      - apply String.eqb_eq in E0. subst k0. cbn in Hin. tauto.
      - f_equal. apply IH. cbn in Hin. tauto. }
    rewrite E, map_app. cbn.
    apply NoDup_app; [exact Hd | repeat constructor; intros [] |].
    intros x Hx [<-|[]]. contradiction.
Qed.
End StringKeys.

Lemma fold_nodup (hs : Header.t) :
  forall d : Header.t,
    NoDup (map fst d) -> NoDup (map fst (fold_left add_header hs d)).
Proof.
  induction hs as [|kv hs IH]; intros d Hd; [exact Hd|].
  cbn [fold_left]. apply IH. unfold add_header.
  destruct (not_host kv); [now apply set_keys_nodup | exact Hd].
Qed.


Lemma filter_all {A : Type} (f : A -> bool) (l : list A) :
  (forall x, In x l -> f x = true) -> filter f l = l.
Proof.
  induction l as [|x l IH]; intros H; [reflexivity|].
  cbn. rewrite (H x (or_introl eq_refl)). f_equal. apply IH.
  intros y Hy. apply H. now right.
Qed.

End MoreHeaderFacts.

Module DedupFacts.





End DedupFacts.





(** X9.  The request comprehension drops exactly the names that read
    [host] when the case of their letters is ignored, and the response
    comprehension keeps exactly the entries whose name reads none of the
    four excluded names that way. *)
Theorem dropped_header_names :
  (forall kv, not_host kv = false <-> iequal (fst kv) "host" = true)
  /\ (forall raw_headers k v,
        In (k, v) (response_headers raw_headers)
        <-> In (k, v) raw_headers
            /\ Forall (fun n => iequal k n = false) excluded_headers).
Proof.
  split.
  - intros kv. unfold not_host. rewrite negb_false_iff, String.eqb_eq.
    now apply MoreHeaderFacts.lower_iequal.
  - intros raw k v. unfold response_headers. rewrite filter_In. cbn [fst].
    apply and_iff_compat_l. rewrite negb_true_iff.
    rewrite Forall_forall. split.
    + intros H n Hn. destruct (iequal k n) eqn:E; [|reflexivity].
      assert (Hp : plain_name n = true).
      { cbn in Hn. repeat (destruct Hn as [<-|Hn]; [reflexivity|]). destruct Hn. }
      apply (@MoreHeaderFacts.lower_iequal k n Hp) in E.
      assert (X : existsb (String.eqb (Header.lower k)) excluded_headers = true).
      { apply existsb_exists. exists n. split; [exact Hn|].
        rewrite E. apply String.eqb_refl. }
      congruence.
    + intros H. apply not_true_iff_false. intros X.
      apply existsb_exists in X. destruct X as (n & Hn & E).
      apply String.eqb_eq in E.
      assert (Hp : plain_name n = true).
      { cbn in Hn. repeat (destruct Hn as [<-|Hn]; [reflexivity|]). destruct Hn. }
      apply (@MoreHeaderFacts.lower_iequal k n Hp) in E.
      rewrite (H n Hn) in E. discriminate.
Qed.

(** X10.  Filtering twice is filtering once, on both sides: what was sent
    to the backend, or returned to the client, goes through the same
    comprehension unchanged. *)
Theorem header_filters_idempotent (hs : Header.t) :
  forwarded_headers (forwarded_headers hs) = forwarded_headers hs
  /\ response_headers (response_headers hs) = response_headers hs.
Proof.
  split.
  - unfold forwarded_headers at 1.
    rewrite HeaderFacts.fold_fresh.
    + apply MoreHeaderFacts.filter_all. intros [k v] H.
      apply HeaderFacts.fold_keys in H. destruct H as [[]|[H _]]. exact H.
    + cbn [map app]. apply MoreHeaderFacts.fold_nodup. constructor.
  - unfold response_headers. apply MoreHeaderFacts.filter_all.
    intros kv H. apply filter_In in H. tauto.
Qed.

(** ** The view functions *)

Module MoreViewFacts.

Section Views.
Variable OLLAMA_URL : string.
Variable backend : outbound -> result backend_response.
Variable json_loads : bytes -> result json.
Variable json_dumps : json -> str.

Lemma proxy_chat_calls req :
  calls (proxy_chat OLLAMA_URL backend json_loads json_dumps req)
  = [chat_call OLLAMA_URL req].
Proof.
  unfold proxy_chat, and_then, requests_request, calls. fold (chat_call OLLAMA_URL req).
  destruct (backend (chat_call OLLAMA_URL req)); reflexivity.
Qed.

Lemma proxy_chat_raise req e :
  backend (chat_call OLLAMA_URL req) = Raise e ->
  outcome (proxy_chat OLLAMA_URL backend json_loads json_dumps req) = Raise e.
Proof.
  intros H. unfold proxy_chat, and_then, requests_request, outcome.
  fold (chat_call OLLAMA_URL req). now rewrite H.
Qed.

(** The three branches of [proxy_all]. *)
Lemma proxy_all_cases path req :
  (path = "api/generate"%string /\ method req = "POST"%string
   /\ proxy_all OLLAMA_URL backend json_loads json_dumps path req
      = ([], Raise (NameError "proxy_generate")))
  \/ (path = "api/chat"%string /\ method req = "POST"%string
      /\ proxy_all OLLAMA_URL backend json_loads json_dumps path req
         = proxy_chat OLLAMA_URL backend json_loads json_dumps req)
  \/ (~ (path = "api/generate"%string /\ method req = "POST"%string)
      /\ ~ (path = "api/chat"%string /\ method req = "POST"%string)
      /\ calls (proxy_all OLLAMA_URL backend json_loads json_dumps path req)
         = [generic_call OLLAMA_URL path req]
      /\ forall e, backend (generic_call OLLAMA_URL path req) = Raise e ->
                   outcome (proxy_all OLLAMA_URL backend json_loads json_dumps
                              path req) = Raise e).
Proof.
  unfold proxy_all.
  destruct (String.eqb path "api/generate" && String.eqb (method req) "POST")
    eqn:Eg.
  { apply andb_true_iff in Eg. destruct Eg as [E1 E2].
    apply String.eqb_eq in E1, E2. left. auto. }
  destruct (String.eqb path "api/chat" && String.eqb (method req) "POST")
    eqn:Ec.
  { apply andb_true_iff in Ec. destruct Ec as [E1 E2].
    apply String.eqb_eq in E1, E2. right. left. auto. }
  right. right.
  apply andb_false_iff in Eg, Ec.
  split; [|split; [|split]].
  - intros [E1 E2]. destruct Eg as [E|E]; apply String.eqb_neq in E; tauto.
  - intros [E1 E2]. destruct Ec as [E|E]; apply String.eqb_neq in E; tauto.
  - fold (generic_call OLLAMA_URL path req). unfold and_then, requests_request, calls.
    destruct (backend (generic_call OLLAMA_URL path req)); reflexivity.
  - intros e H. fold (generic_call OLLAMA_URL path req).
    unfold and_then, requests_request, outcome. now rewrite H.
Qed.
End Views.

End MoreViewFacts.

(** X11.  When the backend call raises, the view raises the same
    exception after that one call: it is neither retried nor turned into a
    response.  This holds for [proxy_chat] and for every request of
    [proxy_all] except a POST to [api/generate]. *)
Theorem backend_failure_propagates
    (OLLAMA_URL : string) (backend : outbound -> result backend_response)
    (json_loads : bytes -> result json) (json_dumps : json -> str)
    (path : string) (req : request) (e : exn) :
  (forall call, backend call = Raise e) ->
  (outcome (proxy_chat OLLAMA_URL backend json_loads json_dumps req) = Raise e
   /\ List.length (calls (proxy_chat OLLAMA_URL backend json_loads json_dumps req)) = 1)
  /\ (~ (path = "api/generate"%string /\ method req = "POST"%string) ->
      outcome (proxy_all OLLAMA_URL backend json_loads json_dumps path req) = Raise e
      /\ List.length (calls (proxy_all OLLAMA_URL backend json_loads json_dumps
                               path req)) = 1).
Proof.
  intros Hb.
  assert (Hchat :
            outcome (proxy_chat OLLAMA_URL backend json_loads json_dumps req) = Raise e
            /\ List.length (calls (proxy_chat OLLAMA_URL backend json_loads json_dumps req)) = 1).
  { split; [apply MoreViewFacts.proxy_chat_raise, Hb|].
    now rewrite MoreViewFacts.proxy_chat_calls. }
  split; [exact Hchat|]. intros Hg.
  destruct (MoreViewFacts.proxy_all_cases OLLAMA_URL backend json_loads
              json_dumps path req)
    as [(E1 & E2 & _)|[(_ & _ & ->)|(_ & _ & Hc & Hr)]].
  - tauto.
  - exact Hchat.
  - split; [apply Hr, Hb | now rewrite Hc].
Qed.

Lemma backend_failure_propagates_witness :
  (outcome (proxy_chat Sample.url (fun _ => Raise ConnectionError)
              JsonText.loads JsonText.dumps Sample.get_tags)
   = Raise ConnectionError
   /\ List.length (calls (proxy_chat Sample.url (fun _ => Raise ConnectionError)
                            JsonText.loads JsonText.dumps Sample.get_tags)) = 1)
  /\ (~ ("api/tags"%string = "api/generate"%string
         /\ method Sample.get_tags = "POST"%string) ->
      outcome (proxy_all Sample.url (fun _ => Raise ConnectionError)
                 JsonText.loads JsonText.dumps "api/tags" Sample.get_tags)
      = Raise ConnectionError
      /\ List.length (calls (proxy_all Sample.url (fun _ => Raise ConnectionError)
                               JsonText.loads JsonText.dumps "api/tags"
                               Sample.get_tags)) = 1).
Proof.
  apply (@backend_failure_propagates Sample.url (fun _ => Raise ConnectionError)
           JsonText.loads JsonText.dumps "api/tags" Sample.get_tags
           ConnectionError).
  intros call. reflexivity.
Defined.

(** X12.  Whatever the path and the request, [proxy_all] makes at most one
    outbound call, and that call goes to [OLLAMA_URL + "/" + path] with the
    method, body, cookies and query arguments of the request, with
    redirects not followed and without a header whose name lower-cases to
    [host]. *)
Theorem outbound_call_shape
    (OLLAMA_URL : string) (backend : outbound -> result backend_response)
    (json_loads : bytes -> result json) (json_dumps : json -> str)
    (path : string) (req : request) :
  List.length (calls (proxy_all OLLAMA_URL backend json_loads json_dumps path req)) <= 1
  /\ Forall
       (fun call =>
          o_url call = (OLLAMA_URL ++ "/" ++ path)%string
          /\ o_method call = method req
          /\ o_data call = get_data req
          /\ o_cookies call = cookies req
          /\ o_params call = args req
          /\ o_allow_redirects call = false
          /\ o_headers call = forwarded_headers (headers req)
          /\ forall k v, In (k, v) (o_headers call) ->
                         Header.lower k <> "host"%string)
       (calls (proxy_all OLLAMA_URL backend json_loads json_dumps path req)).
Proof.
  assert (Hh : forall k v, In (k, v) (forwarded_headers (headers req)) ->
                           Header.lower k <> "host"%string).
  { intros k v H. unfold forwarded_headers in H.
    apply HeaderFacts.fold_keys in H. destruct H as [[]|[H _]].
    unfold not_host in H. cbn [fst] in H.
    now apply negb_true_iff, String.eqb_neq in H. }
  destruct (MoreViewFacts.proxy_all_cases OLLAMA_URL backend json_loads
              json_dumps path req)
    as [(_ & _ & ->)|[(-> & Em & ->)|(_ & _ & -> & _)]].
  - split; [cbn; lia | constructor].
  - rewrite MoreViewFacts.proxy_chat_calls. split; [cbn; lia|].
    constructor; [|constructor]. cbn.
    repeat split; try exact Hh. symmetry. exact Em.
  - split; [cbn; lia|]. constructor; [|constructor]. cbn. repeat split.
    exact Hh.
Qed.

(** X13.  [proxy_all] answers without any outbound call exactly for a POST
    to [api/generate]; every other request reaches the backend. *)
Theorem no_call_only_for_generate
    (OLLAMA_URL : string) (backend : outbound -> result backend_response)
    (json_loads : bytes -> result json) (json_dumps : json -> str)
    (path : string) (req : request) :
  calls (proxy_all OLLAMA_URL backend json_loads json_dumps path req) = []
  <-> path = "api/generate"%string /\ method req = "POST"%string.
Proof.
  destruct (MoreViewFacts.proxy_all_cases OLLAMA_URL backend json_loads
              json_dumps path req)
    as [(E1 & E2 & ->)|[(E1 & E2 & ->)|(Hg & _ & -> & _)]].
  - split; [auto | reflexivity].
  - rewrite MoreViewFacts.proxy_chat_calls. split; [discriminate|].
    intros [E _]. rewrite E1 in E. discriminate E.
  - split; [discriminate | tauto].
Qed.

(** ** Start-up *)

Module ConfigFacts.
Import Config.

Lemma append_assoc (a b c : string) : ((a ++ b) ++ c = a ++ b ++ c)%string.
Proof. induction a as [|x a IH]; cbn; [reflexivity | now rewrite IH]. Qed.

Lemma ends_with_sep_app (a : string) c t :
  ends_with_sep (a ++ String c t) = ends_with_sep (String c t).
Proof.
  induction a as [|x a IH]; [reflexivity|].
  cbn [append]. rewrite <- IH.
  destruct (a ++ String c t)%string eqn:E; [|reflexivity].
  destruct a; discriminate E.
Qed.

Lemma not_empty_app (a : string) c t :
  String.eqb (a ++ String c t) EmptyString = false.
Proof. destruct a; reflexivity. Qed.

(** Joining a name that does not start with a slash. *)
Lemma join_name a c t :
  Ascii.eqb c "/" = false ->
  join a (String c t)
  = ((if String.eqb a EmptyString || ends_with_sep a then a else a ++ "/")
       ++ String c t)%string.
Proof.
  intros Hc. unfold join. cbn [starts_with_sep]. rewrite Hc.
  destruct (String.eqb a EmptyString || ends_with_sep a); [reflexivity|].
  now rewrite append_assoc.
Qed.

(** A joined name is never empty and never ends with a slash, when the
    name does not. *)
Lemma join_name_plain a c t :
  Ascii.eqb c "/" = false ->
  ends_with_sep (String c t) = false ->
  String.eqb (join a (String c t)) EmptyString = false
  /\ ends_with_sep (join a (String c t)) = false.
Proof.
  intros Hc Ht. rewrite (@join_name a c t Hc).
  split; [apply not_empty_app | now rewrite ends_with_sep_app].
Qed.

Lemma config_dir_plain sys :
  String.eqb (CONFIG_DIR sys) EmptyString = false
  /\ ends_with_sep (CONFIG_DIR sys) = false.
Proof.
  unfold CONFIG_DIR, APP_NAME.
  destruct (xdg_config_home sys) as [x|];
    [destruct (String.eqb x EmptyString)|];
    apply join_name_plain; reflexivity.
Qed.

End ConfigFacts.

(** X14.  The configuration file is [CONFIG_DIR + "/haollama-proxy.toml"].
    [CONFIG_DIR] is [XDG_CONFIG_HOME] followed by [haollama-proxy] when
    that variable is set and not empty, and the home directory followed by
    [.config/haollama-proxy] when it is unset or empty; a slash is put
    after the first part unless it already ends with one (or the home
    directory is the empty string), so a part that ends with several
    slashes keeps them. *)
Theorem config_file_location (sys : Config.system) :
  Config.CONFIG_FILE sys
  = (Config.CONFIG_DIR sys ++ "/haollama-proxy.toml")%string
  /\ (forall x,
        Config.xdg_config_home sys = Some x ->
        x <> EmptyString ->
        Config.CONFIG_DIR sys
        = ((if Config.ends_with_sep x then x else x ++ "/")
             ++ "haollama-proxy")%string)
  /\ (Config.xdg_config_home sys = None
      \/ Config.xdg_config_home sys = Some EmptyString ->
      Config.CONFIG_DIR sys
      = ((if String.eqb (Config.home sys) EmptyString
             || Config.ends_with_sep (Config.home sys)
          then Config.home sys else Config.home sys ++ "/")
           ++ ".config/haollama-proxy")%string).
Proof.
  split; [|split].
  - destruct (ConfigFacts.config_dir_plain sys) as [H1 H2].
    unfold Config.CONFIG_FILE, Config.CONFIG_FILE_NAME.
    rewrite ConfigFacts.join_name by reflexivity.
    rewrite H1, H2. cbn [orb]. now rewrite ConfigFacts.append_assoc.
  - intros x Hx Hne. unfold Config.CONFIG_DIR, Config.APP_NAME. rewrite Hx.
    apply String.eqb_neq in Hne. rewrite Hne.
    rewrite ConfigFacts.join_name by reflexivity.
    now rewrite Hne.
  - intros H.
    assert (E : Config.CONFIG_DIR sys
                = Config.join (Config.join (Config.home sys) ".config")
                    Config.APP_NAME).
    { unfold Config.CONFIG_DIR. destruct H as [-> | ->]; reflexivity. }
    rewrite E. unfold Config.APP_NAME.
    destruct (@ConfigFacts.join_name_plain (Config.home sys) "." "config"
                eq_refl eq_refl) as [H1 H2].
    rewrite (@ConfigFacts.join_name _ "h" "aollama-proxy" eq_refl).
    rewrite H1, H2. cbn [orb].
    rewrite (@ConfigFacts.join_name _ "." "config" eq_refl).
    now rewrite !ConfigFacts.append_assoc.
Qed.

Lemma config_file_location_witness :
  let sys := {| Config.xdg_config_home := Some "/etc/xdg/"%string;
                Config.home := "/root";
                Config.makedirs := fun _ => true;
                Config.toml_load := fun _ => Config.FileNotFound;
                Config.open_w := fun _ => true |} in
  Config.CONFIG_FILE sys = "/etc/xdg/haollama-proxy/haollama-proxy.toml"%string
  /\ Config.CONFIG_FILE
       {| Config.xdg_config_home := Some EmptyString;
          Config.home := "/root";
          Config.makedirs := fun _ => true;
          Config.toml_load := fun _ => Config.FileNotFound;
          Config.open_w := fun _ => true |}
     = "/root/.config/haollama-proxy/haollama-proxy.toml"%string.
Proof.
  intros sys. split.
  - destruct (config_file_location sys) as (Hf & Hx & _).
    rewrite Hf, (Hx "/etc/xdg/"%string eq_refl); [reflexivity | discriminate].
  - match goal with
    | |- Config.CONFIG_FILE ?s = _ =>
        destruct (config_file_location s) as (Hf & _ & Hh)
    end.
    rewrite Hf, Hh; [reflexivity | right; reflexivity].
Defined.

(** X15.  A default configuration file is written only when
    [toml.load] raised [FileNotFoundError]; it is written to
    [CONFIG_FILE] and holds the default configuration.  A file that exists
    is never written, whether it parses or not. *)
Theorem config_written_only_when_missing
    (sys : Config.system) (file : string) (config : list (string * Config.toml)) :
  In (Config.WriteFile file config) (fst (Config.module_start sys))
  <-> Config.makedirs sys (Config.CONFIG_DIR sys) = true
      /\ Config.toml_load sys (Config.CONFIG_FILE sys) = Config.FileNotFound
      /\ Config.open_w sys (Config.CONFIG_FILE sys) = true
      /\ file = Config.CONFIG_FILE sys
      /\ config = Config.default_config.
Proof.
  unfold Config.module_start.
  destruct (Config.makedirs sys (Config.CONFIG_DIR sys)).
  - destruct (Config.toml_load sys (Config.CONFIG_FILE sys)) as [cfg| |].
    + unfold Config.bind_url.
      destruct (o <- Config.item (Config.TTable cfg) "ollama" ;; Config.item o "url");
        cbn; split; try (intros [H|[]]; discriminate H);
        intros (_ & H & _); discriminate H.
    + destruct (Config.open_w sys (Config.CONFIG_FILE sys)).
      * cbn. split.
        -- intros [H|[H|[H|[]]]]; try discriminate H.
           injection H as <- <-. auto.
        -- intros (_ & _ & _ & -> & ->). auto.
      * cbn. split.
        -- intros [H|[H|[]]]; discriminate H.
        -- intros (_ & _ & H & _). discriminate H.
    + cbn. split.
      * intros [H|[H|[]]]; discriminate H.
      * intros (_ & H & _). discriminate H.
  - cbn. split; [tauto | intros (H & _); discriminate H].
Qed.

(** X16.  When the file is missing (and can be created) or cannot be
    loaded, the module starts with the defaults: the backend URL is
    [http://localhost:11434] and the proxy listens on [0.0.0.0], port
    12434. *)
Theorem config_defaults (sys : Config.system) :
  Config.makedirs sys (Config.CONFIG_DIR sys) = true ->
  (Config.toml_load sys (Config.CONFIG_FILE sys) = Config.FileNotFound
   /\ Config.open_w sys (Config.CONFIG_FILE sys) = true)
  \/ Config.toml_load sys (Config.CONFIG_FILE sys) = Config.LoadFailed ->
  exists config,
    snd (Config.module_start sys)
    = Config.Up config (Config.TStr "http://localhost:11434")
    /\ Config.listen config
       = Ok (Config.TStr "0.0.0.0", Config.TInt 12434).
Proof.
  intros Hm H. unfold Config.module_start. rewrite Hm.
  destruct H as [[-> ->] | ->].
  - exists Config.default_config. split; reflexivity.
  - exists Config.fallback_config. split; reflexivity.
Qed.

Lemma config_defaults_witness :
  exists config,
    snd (Config.module_start
           {| Config.xdg_config_home := None;
              Config.home := "/root";
              Config.makedirs := fun _ => true;
              Config.toml_load := fun _ => Config.LoadFailed;
              Config.open_w := fun _ => false |})
    = Config.Up config (Config.TStr "http://localhost:11434")
    /\ Config.listen config
       = Ok (Config.TStr "0.0.0.0", Config.TInt 12434).
Proof.
  apply config_defaults; [reflexivity | right; reflexivity].
Defined.

(** X17.  A file that parses is taken as it is, with no default filled
    in: when it has no [ollama] table, or that table has no [url], the
    assignment of [OLLAMA_URL] raises [KeyError] and the import dies,
    after the directory was made and nothing else. *)
Theorem config_without_url_is_fatal
    (sys : Config.system) (config : list (string * Config.toml)) :
  Config.makedirs sys (Config.CONFIG_DIR sys) = true ->
  Config.toml_load sys (Config.CONFIG_FILE sys) = Config.Parsed config ->
  Dict.get String.eqb config "ollama"%string = None
  \/ (exists t, Dict.get String.eqb config "ollama"%string = Some (Config.TTable t)
                /\ Dict.get String.eqb t "url"%string = None) ->
  Config.module_start sys
  = ([Config.Makedirs (Config.CONFIG_DIR sys)],
     Config.Down (Config.Lookup KeyError)).
Proof.
  intros Hm Hl H. unfold Config.module_start. rewrite Hm, Hl.
  unfold Config.bind_url, Config.item.
  destruct H as [-> | (t & -> & Ht)]; [reflexivity|].
  cbn [bind]. now rewrite Ht.
Qed.

Lemma config_without_url_is_fatal_witness :
  let sys := {| Config.xdg_config_home := None;
                Config.home := "/root";
                Config.makedirs := fun _ => true;
                Config.toml_load := fun _ =>
                  Config.Parsed [("proxy", Config.TTable [("port", Config.TInt 8080)])]%string;
                Config.open_w := fun _ => true |} in
  Config.module_start sys
  = ([Config.Makedirs "/root/.config/haollama-proxy"],
     Config.Down (Config.Lookup KeyError)).
Proof.
  intros sys.
  apply (@config_without_url_is_fatal sys
           [("proxy", Config.TTable [("port", Config.TInt 8080)])]%string).
  - reflexivity.
  - reflexivity.
  - left. reflexivity.
Defined.

(** ** [query_ollama] *)

(** X18.  [query_ollama] makes one POST to [OLLAMA_URL + "/api/generate"]
    with the body [{"prompt": prompt}].  When the backend answers with a
    4xx or 5xx status it raises [HTTPError] whatever the body holds. *)
Theorem query_ollama_error_status
    (OLLAMA_URL : string) (requests_post : json_post -> result backend_response)
    (response_json : bytes -> result json) (prompt : json)
    (response : backend_response) :
  let call := {| jp_url := (OLLAMA_URL ++ "/api/generate")%string;
                 jp_json := JDict [(u "prompt", prompt)] |} in
  requests_post call = Ok response ->
  (400 <= status_code response < 600)%Z ->
  query_ollama OLLAMA_URL requests_post response_json prompt
  = ([call], HTTPError (status_code response)).
Proof.
  intros call Hr Hs. unfold query_ollama. fold call. rewrite Hr.
  unfold error_status.
  destruct (Z.leb_spec 400 (status_code response)); [|lia].
  destruct (Z.ltb_spec (status_code response) 600); [|lia].
  reflexivity.
Qed.

Lemma query_ollama_error_status_witness :
  query_ollama Sample.url
    (fun _ => Ok {| status_code := 404%Z; raw_headers := [];
                    resp_content := bytes_of "{'response': 'text'}";
                    iter_lines := [] |})
    JsonText.loads (JStr (u "hi"))
  = ([{| jp_url := "http://localhost:11434/api/generate";
         jp_json := JDict [(u "prompt", JStr (u "hi"))] |}],
     HTTPError 404).
Proof.
  apply (@query_ollama_error_status Sample.url
           (fun _ => Ok {| status_code := 404%Z; raw_headers := [];
                           resp_content := bytes_of "{'response': 'text'}";
                           iter_lines := [] |})
           JsonText.loads (JStr (u "hi"))
           {| status_code := 404%Z; raw_headers := [];
              resp_content := bytes_of "{'response': 'text'}";
              iter_lines := [] |}).
  - reflexivity.
  - cbn. lia.
Defined.

(** X19.  With any other status, [query_ollama] returns the value under
    [response] of the JSON object in the body, and the empty string when
    the object has no such key; a body that is JSON but no object makes
    [.get] raise [AttributeError]. *)
Theorem query_ollama_response_field
    (OLLAMA_URL : string) (requests_post : json_post -> result backend_response)
    (response_json : bytes -> result json) (prompt : json)
    (response : backend_response) (body : json) :
  requests_post {| jp_url := (OLLAMA_URL ++ "/api/generate")%string;
                   jp_json := JDict [(u "prompt", prompt)] |} = Ok response ->
  ~ (400 <= status_code response < 600)%Z ->
  response_json (resp_content response) = Ok body ->
  snd (query_ollama OLLAMA_URL requests_post response_json prompt)
  = match body with
    | JDict d =>
        match Dict.get str_eqb d (u "response") with
        | Some v => Returned v
        | None => Returned (JStr [])
        end
    | _ => AttributeError
    end.
Proof.
  intros Hr Hs Hb. unfold query_ollama. cbn [snd]. rewrite Hr.
  unfold error_status.
  destruct (Z.leb_spec 400 (status_code response));
    destruct (Z.ltb_spec (status_code response) 600); try lia;
    cbn [andb]; rewrite Hb;
    (destruct body as [| | | | | |d]; try reflexivity;
     destruct (Dict.get str_eqb d (u "response")); reflexivity).
Qed.

Lemma query_ollama_response_field_witness :
  snd (query_ollama Sample.url
         (fun _ => Ok {| status_code := 200%Z; raw_headers := [];
                         resp_content := bytes_of "{'done': true}";
                         iter_lines := [] |})
         JsonText.loads (JStr (u "hi")))
  = Returned (JStr []).
Proof.
  apply (@query_ollama_response_field Sample.url
           (fun _ => Ok {| status_code := 200%Z; raw_headers := [];
                           resp_content := bytes_of "{'done': true}";
                           iter_lines := [] |})
           JsonText.loads (JStr (u "hi"))
           {| status_code := 200%Z; raw_headers := [];
              resp_content := bytes_of "{'done': true}";
              iter_lines := [] |}
           (JDict [(u "done", JBool true)])).
  - reflexivity.
  - cbn. lia.
  - vm_compute. reflexivity.
Defined.
